(** * A shallow embedding of [logger.py]

    The program is a small logger with three output strategies
    ([ConsoleLogger], [FileLogger], [JSONLogger]), a factory
    ([create_logger]) and a [Logger] class that formats a line and hands
    it to its current strategy.

    Everything the program does is an effect: it reads the clock, prints,
    opens files.  The embedding threads an explicit [world] through a
    state-and-exception monad.  The world holds the object heap, the
    working directory, standard output, the clock and a trace of the
    calls the program makes. *)

From Stdlib Require Import NArith ZArith Lia List String Ascii.
From Stdlib Require Import DecimalString.
From stdpp Require Import base option list strings gmap.

Local Open Scope N_scope.
Local Open Scope list_scope.
Local Set Warnings "-register-all".

(** ** Text

    A Python [str] is a sequence of code points.  A character is the
    number of its code point; a text is a list of them. *)

Abbreviation char := N (only parsing).
Abbreviation text := (list N) (only parsing).

Definition ord (a : ascii) : char := N_of_ascii a.

(** [lit s] is the text of a string literal of the source. *)
Definition lit (s : string) : text := map N_of_ascii (list_ascii_of_string s).

(** The code points of well-formed Unicode text: everything up to
    U+10FFFF but the surrogates U+D800..U+DFFF. *)
Definition is_scalar (c : char) : bool :=
  (c <? 0xD800) || ((0xDFFF <? c) && (c <=? 0x10FFFF)).

Definition unicode_text (s : text) : Prop := Forall (fun c => is_scalar c = true) s.

(** Text files and standard output encode with UTF-8, the encoding the
    specification names for the log file: it has a code for every
    Unicode scalar value and none for a surrogate. *)
Definition encodable (s : text) : bool := forallb is_scalar s.

Definition is_digit (c : char) : bool := (ord "0" <=? c) && (c <=? ord "9").

(** ** Decimal formatting *)

(** [str(n)] for a natural number. *)
Definition decimal (n : N) : text := lit (NilZero.string_of_uint (N.to_uint n)).

(** [s.zfill(w)] for a text of digits. *)
Definition zfill (w : nat) (s : text) : text :=
  repeat (ord "0") (w - length s)%nat ++ s.

(** ["%0wd" % n] for [n >= 0]. *)
Definition fmt_d (w : nat) (n : N) : text := zfill w (decimal n).

(** ** [datetime] *)

Record datetime := mk_datetime {
  year : N; month : N; day : N;
  hour : N; minute : N; second : N;
  microsecond : N
}.


(** [d.strftime("%Y-%m-%d %H:%M:%S")].  The work is done by [strftime]
    of the C library, which prints [%Y] as the number of the year, with
    no leading zeros, and the other fields with two digits. *)
Definition strftime (d : datetime) : text :=
  decimal (year d) ++ lit "-" ++ fmt_d 2 (month d) ++ lit "-" ++ fmt_d 2 (day d)
  ++ lit " "
  ++ fmt_d 2 (hour d) ++ lit ":" ++ fmt_d 2 (minute d) ++ lit ":" ++ fmt_d 2 (second d).

(** [d.isoformat()] for a naive datetime: the year has four digits, and
    the fraction is printed only when [microsecond] is not zero. *)
Definition isoformat (d : datetime) : text :=
  fmt_d 4 (year d) ++ lit "-" ++ fmt_d 2 (month d) ++ lit "-" ++ fmt_d 2 (day d)
  ++ lit "T"
  ++ fmt_d 2 (hour d) ++ lit ":" ++ fmt_d 2 (minute d) ++ lit ":" ++ fmt_d 2 (second d)
  ++ (if microsecond d =? 0 then [] else lit "." ++ fmt_d 6 (microsecond d)).

(** ** Exceptions and results *)

Inductive exn :=
| FileNotFoundError (path : string)
| IsADirectoryError (path : string)
| PermissionError (path : string)
| JSONDecodeError (msg : string)
| AttributeError (msg : string)
| RecursionError
| ValueError (msg : text)
| UnicodeEncodeError (object : text).

Inductive result (A : Type) :=
| Ok (a : A)
| Raise (e : exn).
Arguments Ok {A} a.
Arguments Raise {A} e.

Definition is_FileNotFoundError (e : exn) : bool :=
  match e with FileNotFoundError _ => true | _ => false end.

(** ** The world *)

(** The three concrete subclasses of [LogStrategy]. *)
Inductive LogStrategy := ConsoleLogger | FileLogger | JSONLogger.

(** Objects are referred to by their address in the heap. *)
Abbreviation loc := nat (only parsing).

Inductive pyobj :=
| OStrategy (cls : LogStrategy)
| OLogger (strategy : loc).

(** An entry of the working directory. *)
Inductive node :=
| File (readable writable : bool) (data : text)
| Dir.

Inductive open_mode := ModeR | ModeA | ModeW.

(** What the program is seen to do, in order. *)
Inductive event :=
| EvCall (receiver : loc) (message : text)
| EvOpen (path : string) (mode : open_mode)
| EvRead (path : string)
| EvWrite (path : string) (data : text)
| EvClose (path : string)
| EvPrint (line : text).

Record world := mk_world {
  heap : list pyobj;
  fs : gmap string node;
  stdout : text;
  clock : nat -> datetime;
  ticks : nat;
  trace : list event
}.

Definition set_heap (h : list pyobj) (w : world) : world :=
  mk_world h (fs w) (stdout w) (clock w) (ticks w) (trace w).
Definition set_fs (f : gmap string node) (w : world) : world :=
  mk_world (heap w) f (stdout w) (clock w) (ticks w) (trace w).
Definition set_stdout (o : text) (w : world) : world :=
  mk_world (heap w) (fs w) o (clock w) (ticks w) (trace w).
Definition set_ticks (n : nat) (w : world) : world :=
  mk_world (heap w) (fs w) (stdout w) (clock w) n (trace w).
Definition set_trace (t : list event) (w : world) : world :=
  mk_world (heap w) (fs w) (stdout w) (clock w) (ticks w) t.

(** ** The monad of effects *)

Definition M (A : Type) : Type := world -> result A * world.

Definition ret {A} (a : A) : M A := fun w => (Ok a, w).
Definition raise {A} (e : exn) : M A := fun w => (Raise e, w).

Definition bind {A B} (m : M A) (k : A -> M B) : M B :=
  fun w => match m w with
           | (Ok a, w') => k a w'
           | (Raise e, w') => (Raise e, w')
           end.

Notation "x <- m ;; k" := (bind m (fun x => k))
  (at level 100, m at next level, right associativity).
Notation "m ;;; k" := (bind m (fun _ => k))
  (at level 100, right associativity).

(** [try: body except <handles>: handler] *)
Definition try_except {A} (body : M A) (handles : exn -> bool) (handler : M A) : M A :=
  fun w => match body w with
           | (Ok a, w') => (Ok a, w')
           | (Raise e, w') => if handles e then handler w' else (Raise e, w')
           end.

Definition emit (e : event) : M unit :=
  fun w => (Ok tt, set_trace (trace w ++ [e]) w).

(** [datetime.now()] *)
Definition datetime_now : M datetime :=
  fun w => (Ok (clock w (ticks w)), set_ticks (S (ticks w)) w).

(** ** Files *)

(** [open(path, mode)] in text mode.  Opening for writing truncates,
    opening for writing or appending creates a missing file. *)
Definition open_file (path : string) (mode : open_mode) : M unit :=
  emit (EvOpen path mode) ;;;
  fun w =>
    match fs w !! path, mode with
    | None, ModeR => (Raise (FileNotFoundError path), w)
    | None, _ => (Ok tt, set_fs (<[path := File true true []]> (fs w)) w)
    | Some Dir, _ => (Raise (IsADirectoryError path), w)
    | Some (File r wr data), ModeR =>
        if r then (Ok tt, w) else (Raise (PermissionError path), w)
    | Some (File r wr data), ModeA =>
        if wr then (Ok tt, w) else (Raise (PermissionError path), w)
    | Some (File r wr data), ModeW =>
        if wr then (Ok tt, set_fs (<[path := File r wr []]> (fs w)) w)
        else (Raise (PermissionError path), w)
    end.

Definition close_file (path : string) : M unit := emit (EvClose path).

(** [with open(path, mode) as file: body]: the file is closed when the
    body is left, also by an exception, which then goes on. *)
Definition with_open {A} (path : string) (mode : open_mode) (body : M A) : M A :=
  open_file path mode ;;;
  fun w => match body w with
           | (r, w') => (r, snd (close_file path w'))
           end.

(** [file.read()] *)
Definition file_read (path : string) : M text :=
  emit (EvRead path) ;;;
  fun w => match fs w !! path with
           | Some (File _ _ data) => (Ok data, w)
           | _ => (Raise (FileNotFoundError path), w)
           end.

(** [file.write(s)] on a file opened for writing or appending: the
    text is encoded first, and nothing of it is written when that
    fails. *)
Definition file_write (path : string) (s : text) : M unit :=
  emit (EvWrite path s) ;;;
  fun w => if encodable s then
             match fs w !! path with
             | Some (File r wr data) =>
                 (Ok tt, set_fs (<[path := File r wr (data ++ s)]> (fs w)) w)
             | _ => (Raise (FileNotFoundError path), w)
             end
           else (Raise (UnicodeEncodeError s), w).

(** [print(s)]: [s] and then a newline are written to standard output;
    nothing is, when [s] cannot be encoded. *)
Definition print (s : text) : M unit :=
  emit (EvPrint s) ;;;
  fun w => if encodable s
           then (Ok tt, set_stdout (stdout w ++ s ++ lit (String "010" "")) w)
           else (Raise (UnicodeEncodeError s), w).

(** ** The [json] module

    The values [json.load] builds and [json.dump] prints.  A [float] is
    not interpreted here: its type, the conversion from a numeric literal
    and its [repr] are parameters of the development. *)

Section Logger.

Context {float : Type}.
Context (float_of_literal : text -> float) (float_repr : float -> text).

Inductive json :=
| JNone
| JBool (b : bool)
| JInt (z : Z)
| JFloat (f : float)
| JStr (s : text)
| JList (items : list json)
| JDict (items : list (text * json)).

(** *** [json.dumps(obj, indent=2)] *)

Definition hexdigit (d : N) : char := if d <? 10 then ord "0" + d else ord "a" + (d - 10).

(** ['{0:04x}'.format(n)] for [n < 0x10000]. *)
Definition hex4 (n : N) : text :=
  [hexdigit (n / 4096 mod 16); hexdigit (n / 256 mod 16);
   hexdigit (n / 16 mod 16); hexdigit (n mod 16)].

Definition BACKSLASH : char := 92.
Definition QUOTE : char := 34.

Definition escape_u (n : N) : text := [BACKSLASH; ord "u"] ++ hex4 n.

(** The replacement [py_encode_basestring_ascii] makes for one
    character: the short escapes of [ESCAPE_DCT], printable ASCII as it
    is, [\uXXXX] for the rest, a surrogate pair above U+FFFF. *)
Definition encode_char (c : char) : text :=
  if c =? QUOTE then [BACKSLASH; QUOTE]
  else if c =? BACKSLASH then [BACKSLASH; BACKSLASH]
  else if c =? 10 then [BACKSLASH; ord "n"]
  else if c =? 13 then [BACKSLASH; ord "r"]
  else if c =? 9 then [BACKSLASH; ord "t"]
  else if c =? 8 then [BACKSLASH; ord "b"]
  else if c =? 12 then [BACKSLASH; ord "f"]
  else if (32 <=? c) && (c <=? 126) then [c]
  else if c <? 0x10000 then escape_u c
  else
    let n := c - 0x10000 in
    escape_u (N.lor 0xd800 (N.land (N.shiftr n 10) 0x3ff))
    ++ escape_u (N.lor 0xdc00 (N.land n 0x3ff)).

Definition encode_basestring_ascii (s : text) : text :=
  [QUOTE] ++ flat_map encode_char s ++ [QUOTE].

(** [int.__repr__] *)
Definition int_repr (z : Z) : text := lit (NilZero.string_of_int (Z.to_int z)).

Fixpoint join (sep : text) (parts : list text) : text :=
  match parts with
  | [] => []
  | [p] => p
  | p :: ps => p ++ sep ++ join sep ps
  end.

(** A line break followed by the indentation of nesting level [level]. *)
Definition newline_indent (level : nat) : text :=
  10 :: concat (repeat (lit "  ") level).

(** [_iterencode] with [indent=2], item separator [","] and key
    separator [": "]: the chunks it yields, concatenated. *)
Fixpoint iterencode (level : nat) (v : json) : text :=
  match v with
  | JNone => lit "null"
  | JBool true => lit "true"
  | JBool false => lit "false"
  | JInt z => int_repr z
  | JFloat f => float_repr f
  | JStr s => encode_basestring_ascii s
  | JList [] => lit "[]"
  | JList items =>
      lit "[" ++ newline_indent (S level)
      ++ join (lit "," ++ newline_indent (S level)) (map (iterencode (S level)) items)
      ++ newline_indent level ++ lit "]"
  | JDict [] => lit "{}"
  | JDict items =>
      lit "{" ++ newline_indent (S level)
      ++ join (lit "," ++ newline_indent (S level))
              (map (fun kv => encode_basestring_ascii (fst kv) ++ lit ": "
                              ++ iterencode (S level) (snd kv)) items)
      ++ newline_indent level ++ lit "}"
  end.

Definition json_dumps (v : json) : text := iterencode 0 v.

(** *** [json.loads] *)

Definition is_ws (c : char) : bool :=
  (c =? 32) || (c =? 9) || (c =? 10) || (c =? 13).

Fixpoint skip_ws (s : text) : text :=
  match s with
  | c :: r => if is_ws c then skip_ws r else s
  | [] => []
  end.

Definition hexval (c : char) : option N :=
  if (ord "0" <=? c) && (c <=? ord "9") then Some (c - ord "0")
  else if (ord "a" <=? c) && (c <=? ord "f") then Some (c - ord "a" + 10)
  else if (ord "A" <=? c) && (c <=? ord "F") then Some (c - ord "A" + 10)
  else None.

(** [_decode_uXXXX]: the value of four hexadecimal digits. *)
Definition decode_uXXXX (h1 h2 h3 h4 : char) : option N :=
  match hexval h1, hexval h2, hexval h3, hexval h4 with
  | Some a, Some b, Some c, Some d => Some (((a * 16 + b) * 16 + c) * 16 + d)
  | _, _, _, _ => None
  end.

(** The table [BACKSLASH] of the decoder. *)
Definition unescape (e : char) : option char :=
  if e =? QUOTE then Some QUOTE
  else if e =? BACKSLASH then Some BACKSLASH
  else if e =? ord "/" then Some (ord "/")
  else if e =? ord "b" then Some 8
  else if e =? ord "f" then Some 12
  else if e =? ord "n" then Some 10
  else if e =? ord "r" then Some 13
  else if e =? ord "t" then Some 9
  else None.

Definition is_high_surrogate (n : N) : bool := (0xd800 <=? n) && (n <=? 0xdbff).
Definition is_low_surrogate (n : N) : bool := (0xdc00 <=? n) && (n <=? 0xdfff).

Definition push_char {A} (c : char) (r : result (text * A)) : result (text * A) :=
  match r with
  | Ok (s, rest) => Ok (c :: s, rest)
  | Raise e => Raise e
  end.

Definition bad_escape {A} : result A := Raise (JSONDecodeError "Invalid \uXXXX escape").

(** [scanstring] in strict mode, from just after the opening quote:
    the decoded string and what follows the closing quote. *)
Fixpoint scanstring (s : text) : result (text * text) :=
  match s with
  | [] => Raise (JSONDecodeError "Unterminated string starting at")
  | c :: r =>
    if c =? QUOTE then Ok ([], r)
    else if c =? BACKSLASH then
      match r with
      | [] => Raise (JSONDecodeError "Unterminated string starting at")
      | e :: r1 =>
        if e =? ord "u" then
          match r1 with
          | h1 :: h2 :: h3 :: h4 :: r2 =>
            match decode_uXXXX h1 h2 h3 h4 with
            | None => bad_escape
            | Some uni =>
              match r2 with
              | b :: u :: r3 =>
                if is_high_surrogate uni && (b =? BACKSLASH) && (u =? ord "u") then
                  match r3 with
                  | l1 :: l2 :: l3 :: l4 :: r4 =>
                    match decode_uXXXX l1 l2 l3 l4 with
                    | None => bad_escape
                    | Some uni2 =>
                      if is_low_surrogate uni2
                      then push_char (0x10000 + N.lor (N.shiftl (uni - 0xd800) 10)
                                                      (uni2 - 0xdc00))
                                     (scanstring r4)
                      else push_char uni (scanstring r2)
                    end
                  | _ => bad_escape
                  end
                else push_char uni (scanstring r2)
              | _ => push_char uni (scanstring r2)
              end
            end
          | _ => bad_escape
          end
        else
          match unescape e with
          | Some ch => push_char ch (scanstring r1)
          | None => Raise (JSONDecodeError "Invalid \escape")
          end
      end
    else if c <? 32 then Raise (JSONDecodeError "Invalid control character at")
    else push_char c (scanstring r)
  end.

Fixpoint span_digits (s : text) : text * text :=
  match s with
  | c :: r =>
      if is_digit c then let (ds, rest) := span_digits r in (c :: ds, rest)
      else ([], s)
  | [] => ([], [])
  end.

(** The optional group [(\.[0-9]+)?] of [NUMBER_RE]. *)
Definition match_frac (s : text) : text * text :=
  match s with
  | c :: r =>
      if c =? ord "." then
        match span_digits r with
        | ([], _) => ([], s)
        | (ds, rest) => (c :: ds, rest)
        end
      else ([], s)
  | [] => ([], [])
  end.

(** The optional group [([eE][-+]?[0-9]+)?] of [NUMBER_RE]. *)
Definition match_exp (s : text) : text * text :=
  match s with
  | c :: r =>
      if (c =? ord "e") || (c =? ord "E") then
        let (sign, r1) :=
          match r with
          | g :: r' => if (g =? ord "-") || (g =? ord "+") then ([g], r') else ([], r)
          | [] => ([], [])
          end in
        match span_digits r1 with
        | ([], _) => ([], s)
        | (ds, rest) => (c :: sign ++ ds, rest)
        end
      else ([], s)
  | [] => ([], [])
  end.

(** [NUMBER_RE.match]: the groups integer, frac and exp, and the rest. *)
Definition match_number (s : text) : option (text * text * text * text) :=
  let (sign, s1) :=
    match s with
    | c :: r => if c =? ord "-" then ([c], r) else ([], s)
    | [] => ([], [])
    end in
  let groups (integer rest : text) :=
    let (frac, rest1) := match_frac rest in
    let (exp, rest2) := match_exp rest1 in
    Some (integer, frac, exp, rest2) in
  match s1 with
  | c :: r =>
      if c =? ord "0" then groups (sign ++ [c]) r
      else if is_digit c then
        let (ds, rest) := span_digits r in groups (sign ++ c :: ds) rest
      else None
  | [] => None
  end.

(** [sys.int_info.default_max_str_digits]: [int] refuses a text of
    more digits. *)
Definition MAX_STR_DIGITS : N := 4300.

Definition too_many_digits (n : N) : exn :=
  ValueError (lit "Exceeds the limit (4300 digits) for integer string conversion: value has "
              ++ decimal n
              ++ lit " digits; use sys.set_int_max_str_digits() to increase the limit").

(** [int(s)] for a match of the integer group. *)
Definition parse_int (s : text) : result Z :=
  let value (ds : text) :=
    let n := N.of_nat (length ds) in
    if MAX_STR_DIGITS <? n then Raise (too_many_digits n)
    else Ok (Z.of_N (fold_left (fun acc d => acc * 10 + (d - ord "0")) ds 0)) in
  match s with
  | c :: r =>
      if c =? ord "-" then
        match value r with
        | Ok z => Ok (- z)%Z
        | Raise e => Raise e
        end
      else value s
  | [] => Ok 0%Z
  end.

(** [s.startswith(p)], with what follows the prefix. *)
Fixpoint strip_prefix (p s : text) : option text :=
  match p, s with
  | [], _ => Some s
  | a :: p', b :: s' => if a =? b then strip_prefix p' s' else None
  | _ :: _, [] => None
  end.

Definition expecting_value {A} : result A := Raise (JSONDecodeError "Expecting value").

(** The branches of [_scan_once] for constants and numbers. *)
Definition scan_atom (s : text) : result (json * text) :=
  match strip_prefix (lit "null") s with
  | Some rest => Ok (JNone, rest)
  | None =>
  match strip_prefix (lit "true") s with
  | Some rest => Ok (JBool true, rest)
  | None =>
  match strip_prefix (lit "false") s with
  | Some rest => Ok (JBool false, rest)
  | None =>
  match match_number s with
  | Some (integer, frac, exp, rest) =>
      match frac, exp with
      | [], [] =>
          match parse_int integer with
          | Ok z => Ok (JInt z, rest)
          | Raise e => Raise e
          end
      | _, _ => Ok (JFloat (float_of_literal (integer ++ frac ++ exp)), rest)
      end
  | None =>
  match strip_prefix (lit "NaN") s with
  | Some rest => Ok (JFloat (float_of_literal (lit "NaN")), rest)
  | None =>
  match strip_prefix (lit "Infinity") s with
  | Some rest => Ok (JFloat (float_of_literal (lit "Infinity")), rest)
  | None =>
  match strip_prefix (lit "-Infinity") s with
  | Some rest => Ok (JFloat (float_of_literal (lit "-Infinity")), rest)
  | None => expecting_value
  end end end end end end end.

(** [d[k] = v] on a dictionary kept in insertion order. *)
Fixpoint dict_set (k : text) (v : json) (d : list (text * json)) : list (text * json) :=
  match d with
  | [] => [(k, v)]
  | (k', v') :: d' =>
      if bool_decide (k = k') then (k', v) :: d' else (k', v') :: dict_set k v d'
  end.

(** [dict(pairs)] *)
Definition dict_of_pairs (pairs : list (text * json)) : list (text * json) :=
  fold_left (fun d kv => dict_set (fst kv) (snd kv) d) pairs [].

Definition then_cons {A} (x : A) (r : result (list A * text)) : result (list A * text) :=
  match r with
  | Ok (xs, rest) => Ok (x :: xs, rest)
  | Raise e => Raise e
  end.

Definition expecting_comma {A} : result A :=
  Raise (JSONDecodeError "Expecting ',' delimiter").
Definition expecting_colon {A} : result A :=
  Raise (JSONDecodeError "Expecting ':' delimiter").
Definition expecting_name {A} : result A :=
  Raise (JSONDecodeError "Expecting property name enclosed in double quotes").

(** [_scan_once], with the loops of [JSONArray] and [JSONObject].  The
    fuel bounds the depth of the descent. *)
Fixpoint scan_once (fuel : nat) (s : text) {struct fuel} : result (json * text) :=
  match fuel with
  | O => Raise RecursionError
  | S fuel' =>
    match s with
    | [] => expecting_value
    | c :: r =>
      if c =? QUOTE then
        match scanstring r with
        | Ok (str, rest) => Ok (JStr str, rest)
        | Raise e => Raise e
        end
      else if c =? ord "{" then
        match skip_ws r with
        | c1 :: r1 =>
            if c1 =? ord "}" then Ok (JDict [], r1)
            else if c1 =? QUOTE then
              match object_loop fuel' r1 with
              | Ok (pairs, rest) => Ok (JDict (dict_of_pairs pairs), rest)
              | Raise e => Raise e
              end
            else expecting_name
        | [] => expecting_name
        end
      else if c =? ord "[" then
        match skip_ws r with
        | c1 :: r1 =>
            if c1 =? ord "]" then Ok (JList [], r1)
            else
              match array_loop fuel' (c1 :: r1) with
              | Ok (values, rest) => Ok (JList values, rest)
              | Raise e => Raise e
              end
        | [] => expecting_value
        end
      else scan_atom s
    end
  end

(** The loop of [JSONArray], from the start of a value. *)
with array_loop (fuel : nat) (s : text) {struct fuel} : result (list json * text) :=
  match fuel with
  | O => Raise RecursionError
  | S fuel' =>
    match scan_once fuel' s with
    | Raise e => Raise e
    | Ok (value, rest) =>
      match skip_ws rest with
      | c :: r =>
          if c =? ord "]" then Ok ([value], r)
          else if c =? ord "," then then_cons value (array_loop fuel' (skip_ws r))
          else expecting_comma
      | [] => expecting_comma
      end
    end
  end

(** The loop of [JSONObject], from just after the opening quote of a key. *)
with object_loop (fuel : nat) (s : text) {struct fuel}
  : result (list (text * json) * text) :=
  match fuel with
  | O => Raise RecursionError
  | S fuel' =>
    match scanstring s with
    | Raise e => Raise e
    | Ok (key, rest) =>
      match skip_ws rest with
      | c :: r =>
        if c =? ord ":" then
          match scan_once fuel' (skip_ws r) with
          | Raise e => Raise e
          | Ok (value, rest1) =>
            match skip_ws rest1 with
            | c1 :: r1 =>
                if c1 =? ord "}" then Ok ([(key, value)], r1)
                else if c1 =? ord "," then
                  match skip_ws r1 with
                  | q :: r2 =>
                      if q =? QUOTE then then_cons (key, value) (object_loop fuel' r2)
                      else expecting_name
                  | [] => expecting_name
                  end
                else expecting_comma
            | [] => expecting_comma
            end
          end
        else expecting_colon
      | [] => expecting_colon
      end
    end
  end.

(** [json.loads(s)]: one value between optional white space.  The fuel
    is enough for every text: how deep the interpreter lets the decoder
    recurse depends on the stack of the caller and is not part of this
    model. *)
Definition json_loads (s : text) : result json :=
  match strip_prefix [0xFEFF] s with
  | Some _ => Raise (JSONDecodeError "Unexpected UTF-8 BOM (decode using utf-8-sig)")
  | None =>
    match scan_once (2 * length s + 2) (skip_ws s) with
    | Raise e => Raise e
    | Ok (v, rest) =>
        match skip_ws rest with
        | [] => Ok v
        | _ :: _ => Raise (JSONDecodeError "Extra data")
        end
    end
  end.

(** [json.load(file)] *)
Definition json_load (path : string) : M json :=
  s <- file_read path ;;
  match json_loads s with
  | Ok v => ret v
  | Raise e => raise e
  end.

(** [json.dump(obj, file, indent=2)]: the chunks of the encoder are
    written to the file; they are taken together here. *)
Definition json_dump (obj : json) (path : string) : M unit :=
  file_write path (json_dumps obj).

(** [logs.append(x)] *)
Definition append (logs : json) (x : json) : M json :=
  match logs with
  | JList items => ret (JList (items ++ [x]))
  | _ => raise (AttributeError "object has no attribute 'append'")
  end.

(** ** The strategies *)

Definition NEWLINE : text := [10].

(** [ConsoleLogger.write] *)
Definition ConsoleLogger_write (message : text) : M unit :=
  print message.

(** [FileLogger.write] *)
Definition FileLogger_write (message : text) : M unit :=
  with_open "app.log" ModeA
    (file_write "app.log" (message ++ NEWLINE)).

(** The entry [JSONLogger.write] builds. *)
Definition make_entry (timestamp message : text) : json :=
  JDict [(lit "timestamp", JStr timestamp); (lit "message", JStr message)].

(** The [try] statement of [JSONLogger.write]: the logs on file, or the
    empty list when opening the file raises [FileNotFoundError]. *)
Definition read_logs : M json :=
  try_except
    (with_open "logs.json" ModeR (json_load "logs.json"))
    is_FileNotFoundError
    (ret (JList [])).

(** [JSONLogger.write] *)
Definition JSONLogger_write (message : text) : M unit :=
  now <- datetime_now ;;
  let log_entry := make_entry (isoformat now) message in
  logs <- read_logs ;;
  logs <- append logs log_entry ;;
  with_open "logs.json" ModeW (json_dump logs "logs.json").

(** Method lookup: [write] of the class of the receiver. *)
Definition write_method (cls : LogStrategy) : text -> M unit :=
  match cls with
  | ConsoleLogger => ConsoleLogger_write
  | FileLogger => FileLogger_write
  | JSONLogger => JSONLogger_write
  end.

(** [o.write(message)] *)
Definition call_write (o : loc) (message : text) : M unit :=
  fun w =>
    match heap w !! o with
    | Some (OStrategy cls) => (emit (EvCall o message) ;;; write_method cls message) w
    | _ => (Raise (AttributeError "object has no attribute 'write'"), w)
    end.

(** Instance creation: the new object gets the next free address. *)
Definition new (obj : pyobj) : M loc :=
  fun w => (Ok (length (heap w)), set_heap (heap w ++ [obj]) w).

(** ** The factory *)

(** [create_logger] *)
Definition create_logger (log_type : text) : M loc :=
  if bool_decide (log_type = lit "console") then new (OStrategy ConsoleLogger)
  else if bool_decide (log_type = lit "file") then new (OStrategy FileLogger)
  else if bool_decide (log_type = lit "json") then new (OStrategy JSONLogger)
  else raise (ValueError (lit "Unknown logger type: " ++ log_type)).

(** ** The logger *)

(** [Logger(strategy)] *)
Definition Logger_init (strategy : loc) : M loc :=
  new (OLogger strategy).

(** [self.strategy] *)
Definition get_strategy (self : loc) : M loc :=
  fun w =>
    match heap w !! self with
    | Some (OLogger strategy) => (Ok strategy, w)
    | _ => (Raise (AttributeError "object has no attribute 'strategy'"), w)
    end.

(** [self.strategy = new_strategy] *)
Definition set_strategy (self new_strategy : loc) : M unit :=
  fun w =>
    match heap w !! self with
    | Some (OLogger _) => (Ok tt, set_heap (<[self := OLogger new_strategy]> (heap w)) w)
    | _ => (Raise (AttributeError "object has no attribute 'strategy'"), w)
    end.

(** [Logger.change_output] *)
Definition change_output (self new_strategy : loc) : M unit :=
  set_strategy self new_strategy.

(** The f-string of [Logger.log]. *)
Definition format_message (timestamp level message : text) : text :=
  lit "[" ++ timestamp ++ lit "] " ++ level ++ lit ": " ++ message.

(** [Logger.log] *)
Definition log (self : loc) (level message : text) : M unit :=
  now <- datetime_now ;;
  let timestamp := strftime now in
  let formatted_message := format_message timestamp level message in
  strategy <- get_strategy self ;;
  call_write strategy formatted_message.

(** [Logger.info], [Logger.error], [Logger.warning] *)
Definition info (self : loc) (message : text) : M unit :=
  log self (lit "INFO") message.

Definition error (self : loc) (message : text) : M unit :=
  log self (lit "ERROR") message.

Definition warning (self : loc) (message : text) : M unit :=
  log self (lit "WARNING") message.

(** ** Callers *)

(** [for (level, message) in calls: logger.log(level, message)]: the
    first exception ends the loop. *)
Fixpoint log_all (self : loc) (calls : list (text * text)) : M unit :=
  match calls with
  | [] => ret tt
  | (level, message) :: rest => log self level message ;;; log_all self rest
  end.

(** The same loop in a caller that catches every exception of a call
    and goes on with the next. *)
Fixpoint log_each (self : loc) (calls : list (text * text)) : M unit :=
  match calls with
  | [] => ret tt
  | (level, message) :: rest =>
      fun w => log_each self rest (snd (log self level message w))
  end.

(** ** Observations used in the statements *)

(** The [write] calls among some events: receiver and argument. *)
Fixpoint write_calls (evs : list event) : list (loc * text) :=
  match evs with
  | [] => []
  | EvCall o message :: rest => (o, message) :: write_calls rest
  | _ :: rest => write_calls rest
  end.

(** The content of a directory entry, empty when there is no file. *)
Definition content (n : option node) : text :=
  match n with
  | Some (File _ _ data) => data
  | _ => []
  end.

(** A file that [open(path, "a")] or [open(path, "w")] accepts: missing,
    or a regular file that may be written. *)
Definition writable_or_missing (n : option node) : Prop :=
  match n with
  | None => True
  | Some (File _ wr _) => wr = true
  | Some Dir => False
  end.

(** The body of the [try] statement of [JSONLogger.write]. *)
Definition load_logs : M json :=
  with_open "logs.json" ModeR (json_load "logs.json").





(** The names the factory knows, with the class each stands for. *)
Definition recognized : list (text * LogStrategy) :=
  [(lit "console", ConsoleLogger); (lit "file", FileLogger); (lit "json", JSONLogger)].

(** The lines a sequence of calls of [log] formats when the clock is
    read [step] times in each call, the first time at tick [t]. *)
Fixpoint formatted_lines (clk : nat -> datetime) (step t : nat)
    (calls : list (text * text)) : list text :=
  match calls with
  | [] => []
  | (level, message) :: rest =>
      format_message (strftime (clk t)) level message
      :: formatted_lines clk step (step + t) rest
  end.

(** The entries the same calls add through [JSONLogger]: each call reads
    the clock once in [log] and once more in [JSONLogger.write]. *)
Fixpoint json_entries (clk : nat -> datetime) (t : nat)
    (calls : list (text * text)) : list json :=
  match calls with
  | [] => []
  | (level, message) :: rest =>
      make_entry (isoformat (clk (S t))) (format_message (strftime (clk t)) level message)
      :: json_entries clk (2 + t) rest
  end.

(** The events of one call of [log] through [FileLogger]. *)
Definition file_cycle (o : loc) (line : text) : list event :=
  [EvCall o line; EvOpen "app.log" ModeA; EvWrite "app.log" (line ++ NEWLINE);
   EvClose "app.log"].

(** Calls whose levels and messages UTF-8 can encode. *)
Definition texts_of_calls (calls : list (text * text)) : Prop :=
  Forall (fun c => unicode_text (fst c) /\ unicode_text (snd c)) calls.

(** The code points a Python [str] can hold. *)
Definition is_str (s : text) : Prop := Forall (fun c => c <= 0x10FFFF) s.

(** No high surrogate is directly followed by a low surrogate. *)
Fixpoint no_surrogate_pair (s : text) : bool :=
  match s with
  | c :: r =>
      match r with
      | c' :: _ => negb (is_high_surrogate c && is_low_surrogate c')
      | [] => true
      end && no_surrogate_pair r
  | [] => true
  end.

Definition pair_free (s : text) : Prop := is_str s /\ no_surrogate_pair s = true.

Definition pair_free_calls (calls : list (text * text)) : Prop :=
  Forall (fun c => pair_free (fst c) /\ pair_free (snd c)) calls.

(** [d[key]] on a dictionary kept in insertion order. *)
Fixpoint dict_get (key : text) (d : list (text * json)) : option json :=
  match d with
  | [] => None
  | (k, v) :: d' => if bool_decide (k = key) then Some v else dict_get key d'
  end.

(** [e[key]] for a value read from JSON: defined on objects only. *)
Definition getitem (e : json) (key : text) : option json :=
  match e with
  | JDict items => dict_get key items
  | _ => None
  end.

(** * Properties *)

(** ** Text and formatting *)




(** The numbers [from], [from + 1], ... ([k] of them). *)
Fixpoint count_up (k : nat) (from : N) : list N :=
  match k with
  | O => []
  | S k' => from :: count_up k' (N.succ from)
  end.

Lemma in_count_up (k : nat) :
  forall from n, from <= n < from + N.of_nat k -> In n (count_up k from).
Proof.
  induction k as [|k IH]; intros from n Hn; [lia|].
  cbn [count_up]. destruct (N.eq_dec from n) as [->|Hne]; [now left|].
  right. apply IH. lia.
Qed.

(** A check that holds for each number below a bound, by running it. *)
Lemma below_brute (P : N -> bool) (bound : N) :
  forallb P (count_up (N.to_nat bound) 0) = true ->
  forall n, n < bound -> P n = true.
Proof.
  intros Hall n Hn. rewrite forallb_forall in Hall.
  apply Hall, in_count_up. lia.
Qed.












(** ** Strings survive [json.dumps] and [json.loads] *)

Definition hex4_ok (n : N) : bool :=
  match hex4 n with
  | [h1; h2; h3; h4] =>
      match decode_uXXXX h1 h2 h3 h4 with
      | Some m => m =? n
      | None => false
      end
  | _ => false
  end.

Lemma hex4_ok_below n : n < 0x10000 -> hex4_ok n = true.
Proof. apply (below_brute hex4_ok). vm_compute. reflexivity. Qed.

Lemma decode_hex4 n :
  n < 0x10000 ->
  decode_uXXXX (hexdigit (n / 4096 mod 16)) (hexdigit (n / 256 mod 16))
               (hexdigit (n / 16 mod 16)) (hexdigit (n mod 16)) = Some n.
Proof.
  intros Hn. pose proof (hex4_ok_below n Hn) as H.
  unfold hex4_ok, hex4 in H.
  destruct (decode_uXXXX _ _ _ _) as [m|]; [|discriminate].
  apply N.eqb_eq in H. now subst.
Qed.

Lemma scanstring_escape_u (n : N) (r : text) :
  n < 0x10000 -> is_high_surrogate n = false ->
  scanstring (escape_u n ++ r) = push_char n (scanstring r).
Proof.
  intros Hn Hhigh. unfold escape_u, hex4. cbn [app].
  cbn [scanstring]. change (BACKSLASH =? QUOTE) with false.
  change (BACKSLASH =? BACKSLASH) with true. change (ord "u" =? ord "u") with true.
  cbv iota. rewrite decode_hex4 by assumption.
  destruct r as [|b [|u r3]]; try reflexivity.
  rewrite Hhigh. reflexivity.
Qed.

Lemma lor_high_low (a b : N) : b < 1024 -> N.lor (a * 1024) b = a * 1024 + b.
Proof.
  intros Hb.
  assert (Hland : N.land (a * 1024) b = 0).
  { apply N.bits_inj_0. intros i. rewrite N.land_spec.
    destruct (N.lt_ge_cases i 10) as [Hi|Hi].
    - change 1024 with (2 ^ 10). now rewrite N.mul_pow2_bits_low.
    - rewrite <- (N.mod_small b (2 ^ 10)) by exact Hb.
      rewrite N.mod_pow2_bits_high by exact Hi. apply andb_false_r. }
  rewrite <- N.lxor_lor by exact Hland. now rewrite N.add_nocarry_lxor.
Qed.

(** A number below 2^20 splits into two halves of ten bits. *)
Lemma split_halves (n : N) :
  n < 0x100000 -> exists q r, q < 1024 /\ r < 1024 /\ n = q * 1024 + r /\
                              n / 1024 = q /\ n mod 1024 = r.
Proof.
  intros Hn. exists (n / 1024), (n mod 1024).
  assert (Hq : n / 1024 < 1024) by (apply N.Div0.div_lt_upper_bound; lia).
  assert (Hr : n mod 1024 < 1024) by (apply N.mod_lt; discriminate).
  pose proof (N.div_mod' n 1024) as Hdm.
  repeat split; try assumption.
  rewrite N.mul_comm. exact Hdm.
Qed.

(** The two halves of the pair written for a character above U+FFFF. *)
Lemma surrogates_of (n q r : N) :
  q < 1024 -> r < 1024 -> n / 1024 = q -> n mod 1024 = r ->
  N.lor 0xd800 (N.land (N.shiftr n 10) 0x3ff) = 0xd800 + q /\
  N.lor 0xdc00 (N.land n 0x3ff) = 0xdc00 + r.
Proof.
  intros Hq Hr Hdiv Hmod.
  change 0x3ff with (N.ones 10). rewrite !N.land_ones, N.shiftr_div_pow2.
  change (2 ^ 10) with 1024. rewrite Hdiv, Hmod.
  rewrite (N.mod_small q) by exact Hq.
  change 0xd800 with (54 * 1024). change 0xdc00 with (55 * 1024).
  split; now apply lor_high_low.
Qed.

Lemma join_surrogates (q r : N) :
  r < 1024 ->
  0x10000 + N.lor (N.shiftl (0xd800 + q - 0xd800) 10) (0xdc00 + r - 0xdc00)
  = 0x10000 + (q * 1024 + r).
Proof.
  intros Hr.
  replace (0xd800 + q - 0xd800) with q by lia.
  replace (0xdc00 + r - 0xdc00) with r by lia.
  rewrite N.shiftl_mul_pow2. change (2 ^ 10) with 1024.
  now rewrite lor_high_low.
Qed.

Lemma scanstring_pair (c : N) (r : text) :
  0x10000 <= c <= 0x10FFFF ->
  scanstring (escape_u (N.lor 0xd800 (N.land (N.shiftr (c - 0x10000) 10) 0x3ff))
              ++ escape_u (N.lor 0xdc00 (N.land (c - 0x10000) 0x3ff)) ++ r)
  = push_char c (scanstring r).
Proof.
  intros Hc. set (n := c - 0x10000). assert (Hn : n < 0x100000) by lia.
  destruct (split_halves n Hn) as (q & lo & Hq & Hlo & Hsplit & Hdiv & Hmod).
  destruct (surrogates_of n q lo Hq Hlo Hdiv Hmod) as [-> ->].
  unfold escape_u at 1, hex4. cbn [app scanstring].
  change (BACKSLASH =? QUOTE) with false.
  change (BACKSLASH =? BACKSLASH) with true. change (ord "u" =? ord "u") with true.
  cbv iota. rewrite decode_hex4 by lia.
  unfold escape_u, hex4. cbn [app].
  replace (is_high_surrogate (0xd800 + q)) with true
    by (symmetry; unfold is_high_surrogate; apply andb_true_iff; split; apply N.leb_le; lia).
  change (BACKSLASH =? BACKSLASH) with true. change (ord "u" =? ord "u") with true.
  cbn [andb]. cbv iota. rewrite decode_hex4 by lia.
  replace (is_low_surrogate (0xdc00 + lo)) with true
    by (symmetry; unfold is_low_surrogate; apply andb_true_iff; split; apply N.leb_le; lia).
  rewrite join_surrogates by exact Hlo.
  replace (0x10000 + (q * 1024 + lo)) with c by lia. reflexivity.
Qed.

Lemma scanstring_encode_char (c : N) (r : text) :
  is_scalar c = true ->
  scanstring (encode_char c ++ r) = push_char c (scanstring r).
Proof.
  intros Hc. unfold encode_char.
  destruct (N.eqb_spec c QUOTE) as [->|H1]; [reflexivity|].
  destruct (N.eqb_spec c BACKSLASH) as [->|H2]; [reflexivity|].
  destruct (N.eqb_spec c 10) as [->|H3]; [reflexivity|].
  destruct (N.eqb_spec c 13) as [->|H4]; [reflexivity|].
  destruct (N.eqb_spec c 9) as [->|H5]; [reflexivity|].
  destruct (N.eqb_spec c 8) as [->|H6]; [reflexivity|].
  destruct (N.eqb_spec c 12) as [->|H7]; [reflexivity|].
  unfold QUOTE, BACKSLASH in *.
  destruct ((32 <=? c) && (c <=? 126)) eqn:Hp.
  - apply andb_true_iff in Hp as [Hlo%N.leb_le Hhi%N.leb_le].
    cbn [app scanstring]. unfold QUOTE, BACKSLASH.
    rewrite (proj2 (N.eqb_neq c 34)), (proj2 (N.eqb_neq c 92)) by assumption.
    now rewrite (proj2 (N.ltb_ge c 32)) by assumption.
  - unfold is_scalar in Hc.
    destruct (N.ltb_spec c 0x10000) as [Hs|Hs].
    + apply scanstring_escape_u; [exact Hs|].
      unfold is_high_surrogate.
      apply orb_true_iff in Hc as [Hc%N.ltb_lt|[Hc%N.ltb_lt _]%andb_true_iff].
      * apply andb_false_iff. left. apply N.leb_gt. lia.
      * apply andb_false_iff. right. apply N.leb_gt. lia.
    + rewrite <- app_assoc. apply scanstring_pair.
      apply orb_true_iff in Hc as [Hc%N.ltb_lt|[_ Hc%N.leb_le]%andb_true_iff]; lia.
Qed.

(** A surrogate is written as one escape. *)
Lemma encode_char_surrogate (c : N) : 0xd800 <= c <= 0xdfff -> encode_char c = escape_u c.
Proof.
  intros Hc. unfold encode_char, QUOTE, BACKSLASH.
  repeat match goal with
         | |- context [?x =? ?y] => rewrite (proj2 (N.eqb_neq x y)) by lia
         end.
  replace ((32 <=? c) && (c <=? 126)) with false
    by (symmetry; apply andb_false_iff; right; apply N.leb_gt; lia).
  now replace (c <? 0x10000) with true by (symmetry; apply N.ltb_lt; lia).
Qed.

(** What follows the escape of a high surrogate is not the escape of a
    low surrogate, so that the decoder leaves the two apart. *)
Definition no_low_escape (r : text) : bool :=
  match r with
  | b :: u :: r3 =>
      if (b =? BACKSLASH) && (u =? ord "u") then
        match r3 with
        | l1 :: l2 :: l3 :: l4 :: _ =>
            match decode_uXXXX l1 l2 l3 l4 with
            | Some uni2 => negb (is_low_surrogate uni2)
            | None => false
            end
        | _ => false
        end
      else true
  | _ => true
  end.

Lemma scanstring_escape_high (n : N) (r : text) :
  n < 0x10000 -> no_low_escape r = true ->
  scanstring (escape_u n ++ r) = push_char n (scanstring r).
Proof.
  intros Hn Hno. unfold escape_u, hex4. cbn [app].
  cbn [scanstring]. change (BACKSLASH =? QUOTE) with false.
  change (BACKSLASH =? BACKSLASH) with true. change (ord "u" =? ord "u") with true.
  cbv iota. rewrite decode_hex4 by assumption.
  destruct r as [|b [|u r3]]; try reflexivity.
  destruct (is_high_surrogate n); [|reflexivity].
  cbn [no_low_escape] in Hno. cbn [andb].
  destruct ((b =? BACKSLASH) && (u =? ord "u")); [|reflexivity].
  destruct r3 as [|l1 [|l2 [|l3 [|l4 r4]]]]; try discriminate Hno.
  destruct (decode_uXXXX l1 l2 l3 l4) as [uni2|]; [|discriminate Hno].
  apply negb_true_iff in Hno. now rewrite Hno.
Qed.

Lemma no_low_escape_u (n : N) (tail : text) :
  n < 0x10000 -> is_low_surrogate n = false -> no_low_escape (escape_u n ++ tail) = true.
Proof.
  intros Hn Hlow. unfold escape_u, hex4. cbn [app no_low_escape].
  change (BACKSLASH =? BACKSLASH) with true. change (ord "u" =? ord "u") with true.
  cbn [andb]. cbv iota. rewrite decode_hex4 by assumption. now rewrite Hlow.
Qed.

Lemma encode_char_no_low_escape (c x : N) (tail : text) :
  c <= 0x10FFFF -> is_low_surrogate c = false ->
  no_low_escape (encode_char c ++ x :: tail) = true.
Proof.
  intros Hc Hlow. unfold encode_char.
  destruct (c =? QUOTE); [reflexivity|].
  destruct (N.eqb_spec c BACKSLASH) as [->|Hb]; [reflexivity|].
  destruct (c =? 10); [reflexivity|].
  destruct (c =? 13); [reflexivity|].
  destruct (c =? 9); [reflexivity|].
  destruct (c =? 8); [reflexivity|].
  destruct (c =? 12); [reflexivity|].
  destruct ((32 <=? c) && (c <=? 126)).
  { cbn [app no_low_escape]. now rewrite (proj2 (N.eqb_neq c BACKSLASH) Hb). }
  destruct (N.ltb_spec c 0x10000) as [Hs|Hs].
  { now apply no_low_escape_u. }
  set (n := c - 0x10000). assert (Hn : n < 0x100000) by lia.
  destruct (split_halves n Hn) as (q & lo & Hq & Hlo & Hsplit & Hdiv & Hmod).
  destruct (surrogates_of n q lo Hq Hlo Hdiv Hmod) as [-> ->].
  rewrite <- app_assoc. apply no_low_escape_u; [lia|].
  unfold is_low_surrogate. apply andb_false_iff. left. apply N.leb_gt. lia.
Qed.

(** One character is read back as it was written, unless it is a high
    surrogate and the escape of a low one follows. *)
Lemma scanstring_encode_step (c : N) (r : text) :
  c <= 0x10FFFF ->
  (is_high_surrogate c = true -> no_low_escape r = true) ->
  scanstring (encode_char c ++ r) = push_char c (scanstring r).
Proof.
  intros Hc Hno.
  destruct (is_scalar c) eqn:Hscalar; [now apply scanstring_encode_char|].
  assert (Hsur : 0xd800 <= c <= 0xdfff).
  { unfold is_scalar in Hscalar.
    apply orb_false_iff in Hscalar as [H1%N.ltb_ge H2%andb_false_iff].
    destruct H2 as [H2%N.ltb_ge|H2%N.leb_gt]; lia. }
  rewrite encode_char_surrogate by exact Hsur.
  destruct (is_high_surrogate c) eqn:Hhigh.
  - apply scanstring_escape_high; [lia|auto].
  - apply scanstring_escape_u; [lia|exact Hhigh].
Qed.

Lemma pair_free_cons (c : N) (s : text) :
  pair_free (c :: s) ->
  c <= 0x10FFFF /\ pair_free s /\
  match s with
  | c' :: _ => is_high_surrogate c = true -> is_low_surrogate c' = false
  | [] => True
  end.
Proof.
  intros [Hstr Hpairs]. inversion Hstr as [|? ? Hc Hs]; subst.
  cbn [no_surrogate_pair] in Hpairs. apply andb_true_iff in Hpairs as [Hhead Htail].
  repeat split; try assumption.
  destruct s as [|c' s']; [exact I|]. intros Hhigh.
  rewrite Hhigh in Hhead. cbn [andb] in Hhead. now apply negb_true_iff in Hhead.
Qed.

(** A text with no high surrogate directly before a low one is read
    back as it was written. *)
Lemma scanstring_encode (s rest : text) :
  pair_free s ->
  scanstring (flat_map encode_char s ++ QUOTE :: rest) = Ok (s, rest).
Proof.
  induction s as [|c s IH]; intros Hs; [reflexivity|].
  apply pair_free_cons in Hs as (Hc & Hs & Hnext).
  cbn [flat_map]. rewrite <- app_assoc, scanstring_encode_step.
  - now rewrite IH.
  - exact Hc.
  - intros Hhigh. destruct s as [|c' s'].
    + cbn [flat_map app no_low_escape]. destruct rest; reflexivity.
    + apply pair_free_cons in Hs as (Hc' & _ & _).
      cbn [flat_map]. rewrite <- app_assoc.
      destruct (flat_map encode_char s' ++ QUOTE :: rest) as [|x tail] eqn:Htail.
      { now destruct (flat_map encode_char s'). }
      apply encode_char_no_low_escape; auto.
Qed.

(** ** The text the program formats is well-formed *)

Lemma unicode_text_app (s t : text) :
  unicode_text s -> unicode_text t -> unicode_text (s ++ t).
Proof. unfold unicode_text. intros. now apply Forall_app. Qed.

Lemma digit_scalar (c : N) : is_digit c = true -> is_scalar c = true.
Proof.
  unfold is_digit, is_scalar. intros [_ H%N.leb_le]%andb_true_iff.
  apply orb_true_iff. left. apply N.ltb_lt. change (ord "9") with 57 in H. lia.
Qed.

Lemma uint_digits (d : Decimal.uint) :
  Forall (fun c => is_digit c = true) (lit (NilEmpty.string_of_uint d)).
Proof. induction d; cbn; constructor; auto. Qed.

Lemma decimal_digits (n : N) : Forall (fun c => is_digit c = true) (decimal n).
Proof.
  unfold decimal, NilZero.string_of_uint.
  destruct (N.to_uint n) eqn:E; try (rewrite <- E; apply uint_digits).
  repeat constructor.
Qed.

Lemma fmt_d_digits (w : nat) (n : N) : Forall (fun c => is_digit c = true) (fmt_d w n).
Proof.
  unfold fmt_d, zfill. apply Forall_app. split; [|apply decimal_digits].
  induction (w - length (decimal n))%nat; cbn; constructor; auto.
Qed.

Lemma fmt_d_text (w : nat) (n : N) : unicode_text (fmt_d w n).
Proof.
  eapply Forall_impl; [apply fmt_d_digits|]. intros c. apply digit_scalar.
Qed.

Lemma decimal_text (n : N) : unicode_text (decimal n).
Proof.
  eapply Forall_impl; [apply decimal_digits|]. intros c. apply digit_scalar.
Qed.

Lemma forallb_text (s : text) : forallb is_scalar s = true -> unicode_text s.
Proof.
  induction s as [|c s IH]; cbn [forallb]; [constructor|].
  intros [Hc Hs]%andb_true_iff. constructor; [exact Hc|exact (IH Hs)].
Qed.

Ltac text_solver :=
  repeat first
    [ assumption
    | apply fmt_d_text
    | apply decimal_text
    | apply unicode_text_app
    | apply forallb_text; reflexivity
    | apply Forall_nil ].

Lemma strftime_text (d : datetime) : unicode_text (strftime d).
Proof. unfold strftime. text_solver. Qed.

Lemma isoformat_text (d : datetime) : unicode_text (isoformat d).
Proof. unfold isoformat. destruct (microsecond d =? 0); text_solver. Qed.

Lemma format_message_text (ts level message : text) :
  unicode_text ts -> unicode_text level -> unicode_text message ->
  unicode_text (format_message ts level message).
Proof. intros. unfold format_message. text_solver. Qed.

Lemma encodable_text (s : text) : encodable s = true <-> unicode_text s.
Proof.
  unfold encodable, unicode_text. rewrite forallb_forall, List.Forall_forall. reflexivity.
Qed.

Lemma encodable_app (s t : text) : encodable (s ++ t) = encodable s && encodable t.
Proof. apply forallb_app. Qed.

Lemma format_message_encodable (d : datetime) (level message : text) :
  unicode_text level -> unicode_text message ->
  encodable (format_message (strftime d) level message) = true.
Proof.
  intros Hlevel Hmessage. apply encodable_text, format_message_text; auto.
  apply strftime_text.
Qed.

Lemma scalar_no_surrogate (c : N) :
  is_scalar c = true ->
  c <= 0x10FFFF /\ is_high_surrogate c = false /\ is_low_surrogate c = false.
Proof.
  unfold is_scalar, is_high_surrogate, is_low_surrogate. intros Hc.
  apply orb_true_iff in Hc as [Hc%N.ltb_lt|[Hc%N.ltb_lt Hmax%N.leb_le]%andb_true_iff];
    (split; [lia|split; apply andb_false_iff]);
    first [ left; apply N.leb_gt; lia | right; apply N.leb_gt; lia ].
Qed.

Lemma unicode_pair_free (s : text) : unicode_text s -> pair_free s.
Proof.
  unfold pair_free, is_str.
  induction 1 as [|c s Hc%scalar_no_surrogate _ [IHstr IHpairs]];
    [split; [constructor|reflexivity]|].
  destruct Hc as (Hmax & Hhigh & _). split; [now constructor|].
  cbn [no_surrogate_pair]. rewrite Hhigh, IHpairs. now destruct s.
Qed.

(** Two such texts with a character between them that is no surrogate. *)
Lemma pair_free_sep (s t : text) (a : N) :
  a < 0xd800 -> pair_free s -> pair_free t -> pair_free (s ++ a :: t).
Proof.
  intros Ha [Hs Hps] [Ht Hpt].
  assert (Hhigh : is_high_surrogate a = false).
  { apply andb_false_iff. left. apply N.leb_gt. lia. }
  assert (Hlow : is_low_surrogate a = false).
  { apply andb_false_iff. left. apply N.leb_gt. lia. }
  split.
  - apply Forall_app. split; [exact Hs|]. constructor; [lia|exact Ht].
  - clear Hs Ht. induction s as [|c s IH].
    + cbn [app no_surrogate_pair]. rewrite Hhigh, Hpt. now destruct t.
    + cbn [no_surrogate_pair] in Hps. apply andb_true_iff in Hps as [Hhead Htail].
      cbn [app no_surrogate_pair]. rewrite (IH Htail), andb_true_r.
      destruct s as [|c' s']; [|exact Hhead].
      cbn [app]. rewrite Hlow. now rewrite andb_false_r.
Qed.

Lemma format_message_pair_free (ts level message : text) :
  unicode_text ts -> pair_free level -> pair_free message ->
  pair_free (format_message ts level message).
Proof.
  intros Hts%unicode_pair_free Hlevel Hmessage. unfold format_message.
  change (lit "[") with [91]. change (lit "] ") with [93; 32].
  change (lit ": ") with [58; 32].
  assert (Hnil : pair_free []) by (split; [constructor|reflexivity]).
  apply (pair_free_sep [] _ 91); [lia|exact Hnil|].
  apply pair_free_sep; [lia|exact Hts|].
  apply (pair_free_sep [] _ 32); [lia|exact Hnil|].
  apply pair_free_sep; [lia|exact Hlevel|].
  apply (pair_free_sep [] _ 32); [lia|exact Hnil|exact Hmessage].
Qed.

(** A check that runs on a text given in full. *)
Lemma pair_free_check (s : text) :
  forallb (fun c => c <=? 0x10FFFF) s && no_surrogate_pair s = true -> pair_free s.
Proof.
  intros [Hstr Hpairs]%andb_true_iff. split; [|exact Hpairs].
  unfold is_str. rewrite forallb_forall in Hstr. apply List.Forall_forall.
  intros c Hin. now apply N.leb_le, Hstr.
Qed.

(** ** Entries survive [json.dumps] and [json.loads] *)

(** An entry as [JSONLogger.write] makes them, of texts that are read
    back as they were written. *)
Definition wf_entry (e : json) : Prop :=
  exists ts message, e = make_entry ts message /\ pair_free ts /\ pair_free message.

(** The text of an entry inside the top-level list. *)
Definition entry_head : text :=
  Eval cbv in lit "{" ++ newline_indent 2 ++ encode_basestring_ascii (lit "timestamp")
              ++ lit ": " ++ [QUOTE].
Definition entry_mid : text :=
  Eval cbv in [QUOTE] ++ lit "," ++ newline_indent 2
              ++ encode_basestring_ascii (lit "message") ++ lit ": " ++ [QUOTE].
Definition entry_tail : text :=
  Eval cbv in [QUOTE] ++ newline_indent 1 ++ lit "}".

Definition entry_text (ts message : text) : text :=
  entry_head ++ flat_map encode_char ts ++ entry_mid
  ++ flat_map encode_char message ++ entry_tail.

Lemma iterencode_entry (ts message : text) :
  iterencode 1 (make_entry ts message) = entry_text ts message.
Proof.
  unfold make_entry, entry_text. cbn [iterencode map join fst snd].
  unfold encode_basestring_ascii at 2 4.
  repeat rewrite <- app_assoc. reflexivity.
Qed.

Local Arguments ord : simpl never.

Ltac norm_ord :=
  repeat match goal with
         | |- context [ord ?a] =>
             let v := eval vm_compute in (ord a) in change (ord a) with v
         end.

Ltac run := repeat (progress (cbn; norm_ord)).

Lemma scan_entry (fuel : nat) (ts message rest : text) :
  pair_free ts -> pair_free message ->
  scan_once (4 + fuel) (entry_text ts message ++ rest)
  = Ok (make_entry ts message, rest).
Proof.
  intros Hts Hmsg. unfold entry_text, entry_head, entry_mid, entry_tail.
  repeat (rewrite <- ?app_assoc; cbn [app]).
  run. rewrite scanstring_encode by assumption.
  run. rewrite scanstring_encode by assumption.
  run. rewrite bool_decide_eq_false_2 by discriminate. reflexivity.
Qed.

Lemma scan_entry_fuel (fuel : nat) (ts message rest : text) :
  (4 <= fuel)%nat -> pair_free ts -> pair_free message ->
  scan_once fuel (entry_text ts message ++ rest) = Ok (make_entry ts message, rest).
Proof.
  intros Hfuel. destruct fuel as [|[|[|[|fuel]]]]; try lia.
  apply (scan_entry fuel).
Qed.

Lemma array_loop_eq (fuel : nat) (s : text) :
  array_loop (S fuel) s =
  match scan_once fuel s with
  | Raise e => Raise e
  | Ok (value, rest) =>
      match skip_ws rest with
      | c :: r =>
          if c =? ord "]" then Ok ([value], r)
          else if c =? ord "," then then_cons value (array_loop fuel (skip_ws r))
          else expecting_comma
      | [] => expecting_comma
      end
  end.
Proof. reflexivity. Qed.

(** The separator between the items of the top-level list. *)
Definition item_sep : text := Eval cbv in lit "," ++ newline_indent 1.

Definition entries_text (es : list json) : text :=
  join item_sep (map (iterencode 1) es).

Lemma entries_text_cons (e : json) (es : list json) :
  wf_entry e -> exists t, entries_text (e :: es) = 123 :: t.
Proof.
  intros (ts & msg & -> & _). unfold entries_text. cbn [map].
  rewrite iterencode_entry. destruct (map (iterencode 1) es); cbn [join]; eauto.
Qed.

Lemma join_cons (sep p q : text) (ps : list text) :
  join sep (p :: q :: ps) = p ++ sep ++ join sep (q :: ps).
Proof. reflexivity. Qed.

Lemma entries_text_length (e : json) (es : list json) :
  (length es <= length (entries_text (e :: es)))%nat.
Proof.
  unfold entries_text. revert e. induction es as [|e' es IH]; intros e; [cbn; lia|].
  cbn [map]. rewrite join_cons. specialize (IH e'). cbn [map] in IH.
  rewrite !length_app. change (length item_sep) with 4%nat.
  cbn [length]. lia.
Qed.

Lemma array_loop_entries (es : list json) :
  forall (e : json) (fuel : nat) (rest : text),
    Forall wf_entry (e :: es) -> (5 + length es <= fuel)%nat ->
    array_loop fuel (entries_text (e :: es) ++ 10 :: 93 :: rest) = Ok (e :: es, rest).
Proof.
  induction es as [|e' es IH]; intros e fuel rest Hwf Hfuel;
    (destruct fuel as [|fuel]; [cbn in Hfuel; lia|]);
    inversion Hwf as [|? ? (ts & msg & -> & Hts & Hmsg) Hwf']; subst;
    cbn [length] in Hfuel.
  - unfold entries_text. cbn [map join]. rewrite iterencode_entry.
    rewrite array_loop_eq, scan_entry_fuel by (assumption || lia).
    reflexivity.
  - specialize (IH e' fuel rest Hwf').
    destruct (entries_text_cons e' es) as [t Ht]; [now inversion Hwf'|].
    unfold entries_text in *. cbn [map] in *. rewrite join_cons, iterencode_entry.
    rewrite Ht in IH |- *. repeat rewrite <- app_assoc.
    rewrite array_loop_eq, scan_entry_fuel by (assumption || lia).
    cbn [app] in IH. unfold item_sep. run. rewrite IH by lia. reflexivity.
Qed.

(** What [json.dumps] writes for a list of entries is read back by
    [json.loads] as the same list. *)
Lemma loads_dumps_entries (es : list json) :
  Forall wf_entry es -> json_loads (json_dumps (JList es)) = Ok (JList es).
Proof.
  intros Hwf. destruct es as [|e es]; [reflexivity|].
  assert (Hdump : json_dumps (JList (e :: es))
                  = 91 :: 10 :: 32 :: 32 :: entries_text (e :: es) ++ [10; 93]).
  { reflexivity. }
  rewrite Hdump. unfold json_loads.
  pose proof (entries_text_length e es) as Hlen.
  destruct (entries_text_cons e es) as [t Ht]; [now inversion Hwf|].
  pose proof (array_loop_entries es e) as Hloop.
  rewrite Ht in Hlen, Hloop |- *.
  match goal with |- context [scan_once ?f _] => remember f as fuel eqn:Hf end.
  cbn [strip_prefix skip_ws is_ws]. run.
  assert (Hbig : (6 + length es <= fuel)%nat).
  { subst fuel. cbn [length] in *. rewrite length_app in *. cbn [length] in *. lia. }
  destruct fuel as [|fuel]; [lia|].
  run. cbn [app] in Hloop. rewrite Hloop by (assumption || lia). reflexivity.
Qed.

(** ** The text of ["logs.json"] is ASCII *)

Definition is_ascii (c : char) : Prop := c < 128.

Lemma hexdigit_ascii (d : N) : d < 16 -> is_ascii (hexdigit d).
Proof.
  unfold hexdigit, is_ascii. intros Hd. change (ord "0") with 48.
  change (ord "a") with 97. destruct (d <? 10); lia.
Qed.

Lemma ascii_literal (s : text) : forallb (fun c => c <? 128) s = true -> Forall is_ascii s.
Proof.
  induction s as [|c s IH]; cbn [forallb]; [constructor|].
  intros [Hc%N.ltb_lt Hs]%andb_true_iff. constructor; [exact Hc|exact (IH Hs)].
Qed.

Lemma hex4_ascii (n : N) : Forall is_ascii (hex4 n).
Proof.
  unfold hex4.
  repeat (constructor; [apply hexdigit_ascii, N.mod_lt; discriminate|]).
  constructor.
Qed.

Lemma escape_u_ascii (n : N) : Forall is_ascii (escape_u n).
Proof.
  unfold escape_u. apply Forall_app. split; [|apply hex4_ascii].
  apply ascii_literal. reflexivity.
Qed.

Lemma encode_char_ascii (c : N) : Forall is_ascii (encode_char c).
Proof.
  unfold encode_char.
  destruct (c =? QUOTE); [apply ascii_literal; reflexivity|].
  destruct (c =? BACKSLASH); [apply ascii_literal; reflexivity|].
  destruct (c =? 10); [apply ascii_literal; reflexivity|].
  destruct (c =? 13); [apply ascii_literal; reflexivity|].
  destruct (c =? 9); [apply ascii_literal; reflexivity|].
  destruct (c =? 8); [apply ascii_literal; reflexivity|].
  destruct (c =? 12); [apply ascii_literal; reflexivity|].
  destruct ((32 <=? c) && (c <=? 126)) eqn:Hprintable.
  { apply andb_true_iff in Hprintable as [_ H%N.leb_le].
    constructor; [unfold is_ascii; lia|constructor]. }
  destruct (c <? 0x10000); [apply escape_u_ascii|].
  apply Forall_app. split; apply escape_u_ascii.
Qed.

Lemma encoded_ascii (s : text) : Forall is_ascii (flat_map encode_char s).
Proof.
  induction s as [|c s IH]; cbn [flat_map]; [constructor|].
  apply Forall_app. split; [apply encode_char_ascii|exact IH].
Qed.

Lemma entry_text_ascii (ts message : text) : Forall is_ascii (entry_text ts message).
Proof.
  unfold entry_text.
  repeat (apply Forall_app; split);
    first [apply encoded_ascii | apply ascii_literal; reflexivity].
Qed.

Lemma entries_text_ascii (es : list json) :
  Forall (fun e => exists ts message, e = make_entry ts message) es ->
  Forall is_ascii (entries_text es).
Proof.
  unfold entries_text. induction 1 as [|e es (ts & msg & ->) Hes IH]; [constructor|].
  cbn [map]. destruct es as [|e' es].
  - cbn [map join]. rewrite iterencode_entry. apply entry_text_ascii.
  - cbn [map] in IH |- *. rewrite join_cons, iterencode_entry.
    apply Forall_app; split; [apply entry_text_ascii|].
    apply Forall_app; split; [apply ascii_literal; reflexivity | exact IH].
Qed.

Lemma dumps_entries_ascii (es : list json) :
  Forall (fun e => exists ts message, e = make_entry ts message) es ->
  Forall is_ascii (json_dumps (JList es)).
Proof.
  intros Hes. destruct es as [|e es]; [apply ascii_literal; reflexivity|].
  change (json_dumps (JList (e :: es)))
    with (91 :: 10 :: 32 :: 32 :: entries_text (e :: es) ++ [10; 93]).
  change (91 :: 10 :: 32 :: 32 :: entries_text (e :: es) ++ [10; 93])
    with ([91; 10; 32; 32] ++ entries_text (e :: es) ++ [10; 93]).
  apply Forall_app; split; [apply ascii_literal; reflexivity|].
  apply Forall_app; split; [now apply entries_text_ascii|].
  apply ascii_literal. reflexivity.
Qed.

Lemma ascii_encodable (s : text) : Forall is_ascii s -> encodable s = true.
Proof.
  intros Hs. apply encodable_text. eapply Forall_impl; [exact Hs|].
  unfold is_ascii, is_scalar. intros c Hc. apply orb_true_iff. left.
  apply N.ltb_lt. lia.
Qed.

(** What [JSONLogger.write] writes for a list of its entries can be
    encoded, whatever their texts are. *)
Lemma dumps_entries_encodable (es : list json) :
  Forall wf_entry es -> encodable (json_dumps (JList es)) = true.
Proof.
  intros Hes. apply ascii_encodable, dumps_entries_ascii.
  eapply Forall_impl; [exact Hes|]. intros e (ts & message & -> & _). eauto.
Qed.

Lemma dumps_appended_encodable (items : list json) (ts message : text) :
  Forall wf_entry items ->
  encodable (json_dumps (JList (items ++ [make_entry ts message]))) = true.
Proof.
  intros Hwf. apply ascii_encodable, dumps_entries_ascii, Forall_app. split.
  - eapply Forall_impl; [exact Hwf|]. intros e (ts' & message' & -> & _). eauto.
  - repeat constructor. eauto.
Qed.

Lemma dumps_first_encodable (ts message : text) :
  encodable (json_dumps (JList ([] ++ [make_entry ts message]))) = true.
Proof. apply dumps_appended_encodable. constructor. Qed.

(** ** What [json.loads] raises *)

Definition decoder_exn (e : exn) : Prop :=
  match e with
  | JSONDecodeError _ | RecursionError | ValueError _ => True
  | _ => False
  end.

Ltac crush_raise :=
  repeat first
    [ progress simplify_eq
    | match goal with
      | |- decoder_exn (JSONDecodeError _) => exact I
      | |- decoder_exn RecursionError => exact I
      | H : context [match ?x with _ => _ end] |- _ => destruct x eqn:?
      end ].

Lemma scanstring_raises (n : nat) :
  forall s e, (length s <= n)%nat -> scanstring s = Raise e -> decoder_exn e.
Proof.
  induction n as [|n IH]; intros s e Hlen H.
  - destruct s; [|cbn in Hlen; lia]. cbn in H. crush_raise.
  - destruct s as [|c r]; cbn [scanstring] in H;
      unfold push_char, bad_escape in H.
    + crush_raise.
    + repeat match goal with
             | H : context [match scanstring ?r with _ => _ end] |- _ =>
                 let E := fresh "E" in
                 destruct (scanstring r) as [[? ?]|?] eqn:E;
                 [|apply IH in E; [|cbn [length] in *; lia]]
             | H : context [match ?x with _ => _ end] |- _ =>
                 lazymatch x with
                 | scanstring _ => fail
                 | _ => destruct x eqn:?
                 end
             | _ => progress simplify_eq
             | |- decoder_exn (JSONDecodeError _) => exact I
             | _ => assumption
             end.
Qed.

Lemma scanstring_decoder_exn (s : text) (e : exn) :
  scanstring s = Raise e -> decoder_exn e.
Proof. now apply (scanstring_raises (length s)). Qed.

Lemma parse_int_decoder_exn (s : text) (e : exn) :
  parse_int s = Raise e -> decoder_exn e.
Proof.
  unfold parse_int, too_many_digits. intros H.
  repeat match goal with
         | H : context [match ?x with _ => _ end] |- _ => destruct x eqn:?
         | _ => progress simplify_eq
         end; exact I.
Qed.

Lemma scan_atom_decoder_exn (s : text) (e : exn) :
  scan_atom s = Raise e -> decoder_exn e.
Proof.
  unfold scan_atom, expecting_value. intros H.
  repeat match goal with
         | H : parse_int _ = Raise _ |- _ => apply parse_int_decoder_exn in H
         | H : context [match ?x with _ => _ end] |- _ => destruct x eqn:?
         | _ => progress simplify_eq
         end;
    first [assumption | exact I].
Qed.

Ltac split_raise IH1 IH2 IH3 :=
  repeat match goal with
         | H : scanstring _ = Raise _ |- _ => apply scanstring_decoder_exn in H
         | H : scan_atom _ = Raise _ |- _ => apply scan_atom_decoder_exn in H
         | H : scan_once _ _ = Raise _ |- _ => apply IH1 in H
         | H : array_loop _ _ = Raise _ |- _ => apply IH2 in H
         | H : object_loop _ _ = Raise _ |- _ => apply IH3 in H
         | H : context [match ?x with _ => _ end] |- _ => destruct x eqn:?
         | _ => progress simplify_eq
         | |- decoder_exn (JSONDecodeError _) => exact I
         | _ => assumption
         end.

Lemma scan_decoder_exn (fuel : nat) :
  (forall s e, scan_once fuel s = Raise e -> decoder_exn e) /\
  (forall s e, array_loop fuel s = Raise e -> decoder_exn e) /\
  (forall s e, object_loop fuel s = Raise e -> decoder_exn e).
Proof.
  induction fuel as [|fuel (IH1 & IH2 & IH3)].
  - repeat split; intros s e H; cbn in H; simplify_eq; exact I.
  - repeat split; intros s e H;
      cbn [scan_once array_loop object_loop] in H;
      unfold then_cons, expecting_value, expecting_comma, expecting_colon,
        expecting_name in H;
      split_raise IH1 IH2 IH3.
Qed.

(** [json.loads] raises nothing but [JSONDecodeError], the [ValueError]
    of [int] (and [RecursionError]); in particular never
    [FileNotFoundError]. *)
Lemma json_loads_decoder_exn (s : text) (e : exn) :
  json_loads s = Raise e -> decoder_exn e.
Proof.
  unfold json_loads. intros H.
  destruct (strip_prefix _ s); [simplify_eq; exact I|].
  destruct (scan_once _ _) as [[v rest]|e'] eqn:E.
  - destruct (skip_ws rest); simplify_eq. exact I.
  - simplify_eq. exact (proj1 (scan_decoder_exn _) _ _ E).
Qed.

Lemma json_loads_not_missing (s : text) (e : exn) :
  json_loads s = Raise e -> is_FileNotFoundError e = false.
Proof. intros H%json_loads_decoder_exn. now destruct e. Qed.

(** ** What one call of a strategy does *)

Definition LOGS : string := "logs.json".

(** [JSONLogger.write], case by case on what is at ["logs.json"]. *)
Definition JSONLogger_outcome (message : text) (w : world) : result unit * world :=
  let entry := make_entry (isoformat (clock w (ticks w))) message in
  let after (r : result unit) (f : gmap string node) (evs : list event) :=
    (r, mk_world (heap w) f (stdout w) (clock w) (S (ticks w)) (trace w ++ evs)) in
  let save (items : list json) (evs : list event) :=
    let out := json_dumps (JList (items ++ [entry])) in
    let cycle := evs ++ [EvOpen LOGS ModeW; EvWrite LOGS out; EvClose LOGS] in
    if encodable out
    then after (Ok tt) (<[LOGS := File true true out]> (fs w)) cycle
    else after (Raise (UnicodeEncodeError out)) (<[LOGS := File true true []]> (fs w)) cycle in
  match fs w !! LOGS with
  | None => save [] [EvOpen LOGS ModeR]
  | Some Dir => after (Raise (IsADirectoryError LOGS)) (fs w) [EvOpen LOGS ModeR]
  | Some (File false _ _) => after (Raise (PermissionError LOGS)) (fs w) [EvOpen LOGS ModeR]
  | Some (File true wr data) =>
      let read := [EvOpen LOGS ModeR; EvRead LOGS; EvClose LOGS] in
      match json_loads data with
      | Raise e => after (Raise e) (fs w) read
      | Ok (JList items) =>
          if wr then save items read
          else after (Raise (PermissionError LOGS)) (fs w) (read ++ [EvOpen LOGS ModeW])
      | Ok _ => after (Raise (AttributeError "object has no attribute 'append'")) (fs w) read
      end
  end.

Local Arguments encodable : simpl never.

Ltac case_encodable :=
  match goal with
  | |- context [encodable ?s] => destruct (encodable s) eqn:?
  end.

Ltac unfold_monad :=
  unfold try_except, with_open, json_load, json_dump, open_file, close_file,
    file_read, file_write, append, print, datetime_now, emit, bind, ret, raise,
    set_trace, set_ticks, set_fs, set_stdout, set_heap in *.

Ltac world_eq :=
  cbn; repeat rewrite <- app_assoc; cbn;
  repeat rewrite lookup_insert_eq; repeat rewrite insert_insert_eq; cbn;
  repeat rewrite <- app_assoc; try reflexivity.

Lemma JSONLogger_write_outcome (message : text) (w : world) :
  JSONLogger_write message w = JSONLogger_outcome message w.
Proof.
  unfold JSONLogger_write, JSONLogger_outcome, read_logs, LOGS. unfold_monad.
  cbn.
  destruct (fs w !! "logs.json"%string) as [[[|] wr data|]|] eqn:Hfile; cbn;
    rewrite ?Hfile; world_eq.
  - destruct (json_loads data) as [[]|e] eqn:Hload; world_eq; rewrite ?Hfile; world_eq.
    + destruct wr; world_eq. case_encodable; world_eq.
    + rewrite (json_loads_not_missing _ _ Hload). reflexivity.
  - case_encodable; world_eq.
Qed.

Definition APP_LOG : string := "app.log".

(** [FileLogger.write], case by case on what is at ["app.log"]. *)
Definition FileLogger_outcome (message : text) (w : world) : result unit * world :=
  let line := message ++ NEWLINE in
  let after (r : result unit) (f : gmap string node) (evs : list event) :=
    (r, mk_world (heap w) f (stdout w) (clock w) (ticks w) (trace w ++ evs)) in
  let cycle := [EvOpen APP_LOG ModeA; EvWrite APP_LOG line; EvClose APP_LOG] in
  match fs w !! APP_LOG with
  | None =>
      if encodable line
      then after (Ok tt) (<[APP_LOG := File true true line]> (fs w)) cycle
      else after (Raise (UnicodeEncodeError line)) (<[APP_LOG := File true true []]> (fs w))
                 cycle
  | Some Dir => after (Raise (IsADirectoryError APP_LOG)) (fs w) [EvOpen APP_LOG ModeA]
  | Some (File rd wr data) =>
      if wr then
        if encodable line
        then after (Ok tt) (<[APP_LOG := File rd wr (data ++ line)]> (fs w)) cycle
        else after (Raise (UnicodeEncodeError line)) (fs w) cycle
      else after (Raise (PermissionError APP_LOG)) (fs w) [EvOpen APP_LOG ModeA]
  end.

Lemma FileLogger_write_outcome (message : text) (w : world) :
  FileLogger_write message w = FileLogger_outcome message w.
Proof.
  unfold FileLogger_write, FileLogger_outcome, APP_LOG. unfold_monad. cbn.
  destruct (fs w !! "app.log"%string) as [[rd [|] data|]|] eqn:Hfile; cbn;
    rewrite ?Hfile; world_eq;
    case_encodable; world_eq; rewrite ?Hfile; world_eq.
Qed.

(** [ConsoleLogger.write]: the line is printed when it can be encoded. *)
Definition ConsoleLogger_outcome (message : text) (w : world) : result unit * world :=
  if encodable message
  then (Ok tt, mk_world (heap w) (fs w) (stdout w ++ message ++ NEWLINE) (clock w)
                        (ticks w) (trace w ++ [EvPrint message]))
  else (Raise (UnicodeEncodeError message),
        mk_world (heap w) (fs w) (stdout w) (clock w) (ticks w)
                 (trace w ++ [EvPrint message])).

Lemma ConsoleLogger_write_outcome (message : text) (w : world) :
  ConsoleLogger_write message w = ConsoleLogger_outcome message w.
Proof.
  unfold ConsoleLogger_write, ConsoleLogger_outcome. unfold_monad. cbn.
  destruct (encodable message); reflexivity.
Qed.

(** How often [write] of a class reads the clock. *)
Definition clock_reads (cls : LogStrategy) : nat :=
  match cls with
  | JSONLogger => 1
  | _ => 0
  end.

(** What a [write] leaves alone: the heap and the clock; it reads the
    clock as often as its class says, and calls no [write] itself. *)
Definition backend_step (cls : LogStrategy) (w w' : world) : Prop :=
  heap w' = heap w /\ clock w' = clock w /\
  ticks w' = (clock_reads cls + ticks w)%nat /\
  exists evs, trace w' = trace w ++ evs /\ write_calls evs = [].

Lemma write_method_step (cls : LogStrategy) (message : text) (w : world) :
  backend_step cls w (snd (write_method cls message w)).
Proof.
  unfold backend_step. destruct cls; cbn [write_method clock_reads].
  - rewrite ConsoleLogger_write_outcome. unfold ConsoleLogger_outcome.
    case_encodable; cbn; eauto 10.
  - rewrite FileLogger_write_outcome. unfold FileLogger_outcome.
    destruct (fs w !! APP_LOG) as [[rd [|] data|]|]; try case_encodable; cbn; eauto 10.
  - rewrite JSONLogger_write_outcome. unfold JSONLogger_outcome.
    destruct (fs w !! LOGS) as [[[|] [|] data|]|]; try case_encodable; cbn; eauto 10;
      destruct (json_loads data) as [[]|e]; try case_encodable; cbn; eauto 10.
Qed.

Lemma write_calls_app (evs1 evs2 : list event) :
  write_calls (evs1 ++ evs2) = write_calls evs1 ++ write_calls evs2.
Proof.
  induction evs1 as [|[] evs1 IH]; cbn; rewrite ?IH; reflexivity.
Qed.

(** The world in which [log] calls [write]: the clock has been read
    once and the call is on the trace. *)
Definition at_call (s : loc) (line : text) (w : world) : world :=
  mk_world (heap w) (fs w) (stdout w) (clock w) (S (ticks w))
           (trace w ++ [EvCall s line]).

Lemma log_run (w : world) (self s : loc) (cls : LogStrategy) (level message : text) :
  heap w !! self = Some (OLogger s) -> heap w !! s = Some (OStrategy cls) ->
  log self level message w
  = write_method cls (format_message (strftime (clock w (ticks w))) level message)
      (at_call s (format_message (strftime (clock w (ticks w))) level message) w).
Proof.
  intros Hself Hs. unfold log, get_strategy, call_write, at_call. unfold_monad.
  cbn. rewrite Hself. cbn. rewrite Hs. reflexivity.
Qed.

Lemma log_step (w : world) (self s : loc) (cls : LogStrategy) (level message : text) :
  heap w !! self = Some (OLogger s) -> heap w !! s = Some (OStrategy cls) ->
  let line := format_message (strftime (clock w (ticks w))) level message in
  let w' := snd (log self level message w) in
  heap w' = heap w /\ clock w' = clock w /\
  ticks w' = (S (clock_reads cls) + ticks w)%nat /\
  exists evs, trace w' = trace w ++ evs /\ write_calls evs = [(s, line)].
Proof.
  intros Hself Hs line w'. subst w'. rewrite (log_run w self s cls) by assumption.
  fold line.
  destruct (write_method_step cls line (at_call s line w))
    as (Hheap & Hclock & Hticks & evs & Htrace & Hcalls).
  repeat split; try assumption.
  - rewrite Hticks. cbn. lia.
  - exists (EvCall s line :: evs). split.
    + rewrite Htrace. cbn. now rewrite <- app_assoc.
    + cbn. now rewrite Hcalls.
Qed.

(** * Properties stated by the specification *)


(** C2.  For each of the names ["console"], ["file"] and ["json"],
    [create_logger] returns a new object of the matching class
    ([ConsoleLogger], [FileLogger], [JSONLogger]): its address was free
    before.  Nothing else happens: the objects there were stay, no file
    is touched, nothing is printed, the clock is not read and the trace
    is as before. *)
Theorem create_logger_recognized (w : world) (name : text) (cls : LogStrategy) :
  In (name, cls) recognized ->
  exists (l : loc) (w' : world),
    create_logger name w = (Ok l, w') /\
    heap w !! l = None /\
    heap w' !! l = Some (OStrategy cls) /\
    (forall o obj, heap w !! o = Some obj -> heap w' !! o = Some obj) /\
    fs w' = fs w /\ stdout w' = stdout w /\ trace w' = trace w /\
    ticks w' = ticks w /\ clock w' = clock w.
Proof.
  intros Hin. exists (length (heap w)), (set_heap (heap w ++ [OStrategy cls]) w).
  assert (Hrun : create_logger name w
                 = (Ok (length (heap w)), set_heap (heap w ++ [OStrategy cls]) w)).
  { cbn in Hin. destruct Hin as [H|[H|[H|[]]]]; inversion H; subst; reflexivity. }
  split; [exact Hrun|]. cbn. repeat split.
  - apply lookup_ge_None. lia.
  - rewrite lookup_app_r by lia. now rewrite Nat.sub_diag.
  - intros o obj Ho. now apply lookup_app_l_Some.
Qed.

(** C3.  For every other name [create_logger] raises [ValueError] with
    the message ["Unknown logger type: "] followed by the name, and the
    world is left exactly as it was: no object is made, no file is
    touched. *)
Theorem create_logger_unrecognized (w : world) (name : text) :
  (forall cls, ~ In (name, cls) recognized) ->
  create_logger name w = (Raise (ValueError (lit "Unknown logger type: " ++ name)), w).
Proof.
  intros Hnot. unfold create_logger.
  repeat case_bool_decide; subst; try reflexivity; exfalso.
  - apply (Hnot ConsoleLogger). cbn. auto.
  - apply (Hnot FileLogger). cbn. auto.
  - apply (Hnot JSONLogger). cbn. auto.
Qed.

(** C8.  [info], [warning] and [error] are [log] with the levels
    ["INFO"], ["WARNING"] and ["ERROR"]: the same result in the same
    world, and so, on a logger with a strategy, the same single [write]
    with the same text. *)
Theorem shortcuts_delegate (w : world) (self s : loc) (cls : LogStrategy)
    (message : text) :
  heap w !! self = Some (OLogger s) ->
  heap w !! s = Some (OStrategy cls) ->
  let ts := strftime (clock w (ticks w)) in
  (info self message w = log self (lit "INFO") message w /\
   exists evs, trace (snd (info self message w)) = trace w ++ evs /\
               write_calls evs = [(s, format_message ts (lit "INFO") message)]) /\
  (warning self message w = log self (lit "WARNING") message w /\
   exists evs, trace (snd (warning self message w)) = trace w ++ evs /\
               write_calls evs = [(s, format_message ts (lit "WARNING") message)]) /\
  (error self message w = log self (lit "ERROR") message w /\
   exists evs, trace (snd (error self message w)) = trace w ++ evs /\
               write_calls evs = [(s, format_message ts (lit "ERROR") message)]).
Proof.
  intros Hself Hs ts. unfold info, warning, error.
  pose proof (fun level => log_step w self s cls level message Hself Hs) as Hlog.
  repeat split; try reflexivity; apply Hlog.
Qed.

(** ** The load step of [JSONLogger.write] *)

Definition with_events (evs : list event) (w : world) : world :=
  mk_world (heap w) (fs w) (stdout w) (clock w) (ticks w) (trace w ++ evs).

(** The body of the [try] statement, case by case on what is at
    ["logs.json"]. *)
Definition load_outcome (w : world) : result json * world :=
  match fs w !! LOGS with
  | None => (Raise (FileNotFoundError LOGS), with_events [EvOpen LOGS ModeR] w)
  | Some Dir => (Raise (IsADirectoryError LOGS), with_events [EvOpen LOGS ModeR] w)
  | Some (File false _ _) =>
      (Raise (PermissionError LOGS), with_events [EvOpen LOGS ModeR] w)
  | Some (File true _ data) =>
      (json_loads data, with_events [EvOpen LOGS ModeR; EvRead LOGS; EvClose LOGS] w)
  end.

Lemma load_logs_outcome (w : world) : load_logs w = load_outcome w.
Proof.
  unfold load_logs, load_outcome, with_events, LOGS. unfold_monad. cbn.
  destruct (fs w !! "logs.json"%string) as [[[|] wr data|]|] eqn:Hfile; cbn;
    rewrite ?Hfile; world_eq.
  destruct (json_loads data); world_eq.
Qed.

Lemma read_logs_present (w : world) (n : node) :
  fs w !! LOGS = Some n -> read_logs w = load_logs w.
Proof.
  intros Hfile. unfold read_logs. fold load_logs. unfold try_except.
  rewrite load_logs_outcome. unfold load_outcome. rewrite Hfile.
  destruct n as [[|] wr data|]; try reflexivity.
  destruct (json_loads data) as [v|e] eqn:Hload; [reflexivity|].
  now rewrite (json_loads_not_missing _ _ Hload).
Qed.

Lemma read_logs_missing (w : world) :
  fs w !! LOGS = None ->
  read_logs w = (Ok (JList []), with_events [EvOpen LOGS ModeR] w).
Proof.
  intros Hfile. unfold read_logs. fold load_logs. unfold try_except.
  rewrite load_logs_outcome. unfold load_outcome. now rewrite Hfile.
Qed.

Lemma load_fst_frame (w w1 : world) :
  fs w1 = fs w -> fst (load_logs w1) = fst (load_logs w).
Proof.
  intros Hfs. rewrite !load_logs_outcome. unfold load_outcome. rewrite Hfs.
  destruct (fs w !! LOGS) as [[[|] wr data|]|]; reflexivity.
Qed.

Lemma JSONLogger_write_load_fails (message : text) (w : world) (n : node) (e : exn) :
  fs w !! LOGS = Some n -> fst (load_logs w) = Raise e ->
  exists evs,
    JSONLogger_write message w
    = (Raise e, mk_world (heap w) (fs w) (stdout w) (clock w) (S (ticks w))
                         (trace w ++ evs)) /\
    (evs = [EvOpen LOGS ModeR] \/ evs = [EvOpen LOGS ModeR; EvRead LOGS; EvClose LOGS]).
Proof.
  intros Hfile Hload. rewrite load_logs_outcome in Hload. unfold load_outcome in Hload.
  rewrite JSONLogger_write_outcome. unfold JSONLogger_outcome.
  rewrite Hfile in Hload |- *.
  destruct n as [[|] wr data|]; cbn in Hload |- *; simplify_eq; eauto.
  rewrite Hload. eauto.
Qed.

(** C5.  On each write the structured backend takes the empty list
    exactly when ["logs.json"] does not exist: then the [try] statement
    yields [[]] and the call goes through.  When the file exists the
    [try] statement is the load step itself, its handler never runs:
    whatever the load step raises, in particular the [JSONDecodeError]
    of content that is not JSON, is raised by [log] to its caller. *)
Theorem load_failure_propagates (w : world) (self s : loc) (level message : text) :
  heap w !! self = Some (OLogger s) ->
  heap w !! s = Some (OStrategy JSONLogger) ->
  (fs w !! LOGS = None ->
     fst (read_logs w) = Ok (JList []) /\ fst (log self level message w) = Ok tt) /\
  (forall n, fs w !! LOGS = Some n -> read_logs w = load_logs w) /\
  (forall n e, fs w !! LOGS = Some n -> fst (load_logs w) = Raise e ->
     fst (log self level message w) = Raise e) /\
  (forall wr data e, fs w !! LOGS = Some (File true wr data) ->
     json_loads data = Raise e ->
     fst (load_logs w) = Raise e /\ fst (log self level message w) = Raise e).
Proof.
  intros Hself Hs.
  assert (Hraise : forall n e, fs w !! LOGS = Some n -> fst (load_logs w) = Raise e ->
                               fst (log self level message w) = Raise e).
  { intros n e Hfile Hload. rewrite (log_run w self s JSONLogger) by assumption.
    cbn [write_method].
    edestruct (JSONLogger_write_load_fails) as (evs & -> & _); [| |reflexivity].
    - cbn. exact Hfile.
    - erewrite load_fst_frame; [exact Hload|reflexivity]. }
  split; [|split; [|split]].
  - intros Hfile. split; [now rewrite read_logs_missing|].
    rewrite (log_run w self s JSONLogger) by assumption.
    cbn [write_method]. rewrite JSONLogger_write_outcome.
    unfold JSONLogger_outcome, at_call. cbn [heap fs stdout clock ticks trace].
    now rewrite Hfile, dumps_first_encodable.
  - intros n. apply read_logs_present.
  - exact Hraise.
  - intros wr data e Hfile Hload.
    assert (Hfst : fst (load_logs w) = Raise e).
    { rewrite load_logs_outcome. unfold load_outcome. now rewrite Hfile. }
    split; [exact Hfst|]. eapply Hraise; eassumption.
Qed.

(** C9.  When ["logs.json"] exists and the load step of
    [JSONLogger.write] raises, [write] raises the same exception and the
    directory is exactly as before: among the events of the call the
    file is opened for reading only and nothing is written. *)
Theorem failed_load_keeps_file (w : world) (message : text) (n : node) (e : exn) :
  fs w !! LOGS = Some n ->
  fst (load_logs w) = Raise e ->
  let w' := snd (JSONLogger_write message w) in
  fst (JSONLogger_write message w) = Raise e /\
  fs w' = fs w /\
  exists evs, trace w' = trace w ++ evs /\
    (forall path mode, In (EvOpen path mode) evs -> mode = ModeR) /\
    (forall path data, ~ In (EvWrite path data) evs).
Proof.
  intros Hfile Hload w'. subst w'.
  destruct (JSONLogger_write_load_fails message w n e Hfile Hload) as (evs & -> & Hevs).
  cbn. repeat split. exists evs. split; [reflexivity|].
  destruct Hevs as [-> | ->]; split; intros path x Hin; cbn in Hin;
    intuition (try discriminate; try congruence).
Qed.

(** ** Sequences of calls through [FileLogger] *)

(** The file after [s] has been appended to what was at the path. *)
Definition appended (n : option node) (s : text) : node :=
  match n with
  | Some (File rd wr data) => File rd wr (data ++ s)
  | _ => File true true s
  end.

Lemma line_encodable (d : datetime) (level message : text) :
  unicode_text level -> unicode_text message ->
  encodable (format_message (strftime d) level message ++ NEWLINE) = true.
Proof.
  intros Hlevel Hmessage. rewrite encodable_app, format_message_encodable by assumption.
  reflexivity.
Qed.

Lemma log_file_step (w : world) (self s : loc) (level message : text) :
  heap w !! self = Some (OLogger s) ->
  heap w !! s = Some (OStrategy FileLogger) ->
  writable_or_missing (fs w !! APP_LOG) ->
  unicode_text level -> unicode_text message ->
  let line := format_message (strftime (clock w (ticks w))) level message in
  log self level message w
  = (Ok tt, mk_world (heap w)
                     (<[APP_LOG := appended (fs w !! APP_LOG) (line ++ NEWLINE)]> (fs w))
                     (stdout w) (clock w) (S (ticks w)) (trace w ++ file_cycle s line)).
Proof.
  intros Hself Hs Hfile Hlevel Hmessage line.
  rewrite (log_run w self s FileLogger) by assumption.
  fold line. cbn [write_method]. rewrite FileLogger_write_outcome.
  unfold FileLogger_outcome, at_call, file_cycle.
  cbn [heap fs stdout clock ticks trace]. subst line.
  rewrite line_encodable by assumption.
  destruct (fs w !! APP_LOG) as [[rd wr data|]|]; cbn in Hfile |- *;
    subst; try contradiction; world_eq.
Qed.

(** The line of a call: ["[<timestamp>] <level>: <message>"] for a
    time printed by [strftime]. *)
Definition line_of_call (line : text) (call : text * text) : Prop :=
  exists d, line = lit "[" ++ strftime d ++ lit "] " ++ fst call ++ lit ": " ++ snd call.

Lemma formatted_lines_shape (clk : nat -> datetime) (step : nat)
    (calls : list (text * text)) :
  forall t, Forall2 line_of_call (formatted_lines clk step t calls) calls.
Proof.
  induction calls as [|[level message] calls IH]; intros t;
    cbn [formatted_lines]; constructor; auto.
  eexists. reflexivity.
Qed.

Lemma formatted_lines_length (clk : nat -> datetime) (step : nat)
    (calls : list (text * text)) :
  forall t, length (formatted_lines clk step t calls) = length calls.
Proof.
  induction calls as [|[level message] calls IH]; intros t;
    cbn [formatted_lines length]; [reflexivity|]. now rewrite IH.
Qed.

Lemma log_all_file (self s : loc) (calls : list (text * text)) :
  forall w : world,
    heap w !! self = Some (OLogger s) ->
    heap w !! s = Some (OStrategy FileLogger) ->
    writable_or_missing (fs w !! APP_LOG) ->
    texts_of_calls calls ->
    let lines := formatted_lines (clock w) 1 (ticks w) calls in
    exists w',
      log_all self calls w = (Ok tt, w') /\
      heap w' = heap w /\ clock w' = clock w /\
      content (fs w' !! APP_LOG)
      = content (fs w !! APP_LOG) ++ concat (map (fun l => l ++ NEWLINE) lines) /\
      writable_or_missing (fs w' !! APP_LOG) /\
      (calls <> [] -> exists rd data, fs w' !! APP_LOG = Some (File rd true data)) /\
      (forall p, p <> APP_LOG -> fs w' !! p = fs w !! p) /\
      trace w' = trace w ++ concat (map (file_cycle s) lines).
Proof.
  induction calls as [|[level message] calls IH]; intros w Hself Hs Hfile Htexts lines.
  - exists w. subst lines. cbn. rewrite !app_nil_r. repeat split; auto. congruence.
  - inversion Htexts as [|? ? [Hlevel Hmessage] Htexts']; subst. cbn [fst snd] in *.
    subst lines. cbn [log_all formatted_lines map concat].
    unfold bind. rewrite (log_file_step w self s) by assumption.
    set (line := format_message (strftime (clock w (ticks w))) level message).
    set (w1 := mk_world _ _ _ _ _ _).
    assert (Hnode : fs w1 !! APP_LOG
                    = Some (appended (fs w !! APP_LOG) (line ++ NEWLINE))).
    { subst w1. cbn. apply lookup_insert_eq. }
    destruct (IH w1) as (w' & Hrun & Hheap & Hclock & Hcontent & Hwr & _ & Hother & Htrace).
    { exact Hself. } { exact Hs. }
    { rewrite Hnode. destruct (fs w !! APP_LOG) as [[rd wr data|]|]; cbn in *; auto. }
    { exact Htexts'. }
    exists w'. rewrite Hrun. repeat split; auto.
    + rewrite Hcontent, Hnode. change (ticks w1) with (1 + ticks w)%nat.
      change (clock w1) with (clock w).
      destruct (fs w !! APP_LOG) as [[rd wr data|]|];
        cbn [writable_or_missing] in Hfile; try contradiction;
        cbn [content appended]; now rewrite <- ?app_assoc.
    + intros _. destruct calls as [|c calls].
      * cbn in Hrun. inversion Hrun; subst w'. rewrite Hnode.
        destruct (fs w !! APP_LOG) as [[rd wr data|]|];
          cbn [writable_or_missing] in Hfile; subst; try contradiction;
          cbn [appended]; eauto.
      * destruct (IH w1) as (w2 & Hrun2 & _ & _ & _ & _ & Hex & _).
        { exact Hself. } { exact Hs. }
        { rewrite Hnode. destruct (fs w !! APP_LOG) as [[rd wr data|]|]; cbn in *; auto. }
        { exact Htexts'. }
        rewrite Hrun in Hrun2. inversion Hrun2; subst w2. apply Hex. discriminate.
    + intros p Hp. rewrite Hother by exact Hp. subst w1. cbn.
      now rewrite lookup_insert_ne.
    + rewrite Htrace. subst w1. cbn. now rewrite <- app_assoc.
Qed.

(** C6, amended.  When ["app.log"] can be opened for appending (it is
    missing or a file that may be written) and the levels and messages
    hold no surrogates, so that the lines can be encoded, [N] calls of
    [log] through [FileLogger] all return, and append their [N] lines,
    each the formatted text and a newline, to ["app.log"] in the order of
    the calls, after whatever the file held; a missing file is made by
    the first call.  No other file changes, and each call opens, writes
    and closes the file itself. *)
Theorem file_logger_appends (w : world) (self s : loc) (calls : list (text * text)) :
  heap w !! self = Some (OLogger s) ->
  heap w !! s = Some (OStrategy FileLogger) ->
  writable_or_missing (fs w !! APP_LOG) ->
  texts_of_calls calls ->
  let lines := formatted_lines (clock w) 1 (ticks w) calls in
  let w' := snd (log_all self calls w) in
  fst (log_all self calls w) = Ok tt /\
  length lines = length calls /\
  Forall2 line_of_call lines calls /\
  content (fs w' !! APP_LOG)
  = content (fs w !! APP_LOG) ++ concat (map (fun l => l ++ [10]) lines) /\
  (calls <> [] -> exists rd data, fs w' !! APP_LOG = Some (File rd true data)) /\
  (forall p, p <> APP_LOG -> fs w' !! p = fs w !! p) /\
  trace w' = trace w ++ concat (map (file_cycle s) lines).
Proof.
  intros Hself Hs Hfile Htexts lines w'. subst w'.
  destruct (log_all_file self s calls w Hself Hs Hfile Htexts)
    as (w' & -> & _ & _ & Hcontent & _ & Hex & Hother & Htrace).
  cbn [fst snd]. split; [reflexivity|].
  split; [apply formatted_lines_length|].
  split; [apply formatted_lines_shape|].
  split; [exact Hcontent|]. auto.
Qed.

(** ** Sequences of calls after a change of strategy *)

Lemma log_each_calls (self B : loc) (cls : LogStrategy) (calls : list (text * text)) :
  forall w : world,
    heap w !! self = Some (OLogger B) ->
    heap w !! B = Some (OStrategy cls) ->
    exists evs,
      trace (snd (log_each self calls w)) = trace w ++ evs /\
      write_calls evs
      = map (fun line => (B, line))
            (formatted_lines (clock w) (S (clock_reads cls)) (ticks w) calls).
Proof.
  induction calls as [|[level message] calls IH]; intros w Hself HB.
  - exists []. cbn. now rewrite app_nil_r.
  - cbn [log_each formatted_lines map].
    destruct (log_step w self B cls level message Hself HB)
      as (Hheap & Hclock & Hticks & evs1 & Htrace1 & Hcalls1).
    destruct (IH (snd (log self level message w))) as (evs2 & Htrace2 & Hcalls2).
    { now rewrite Hheap. } { now rewrite Hheap. }
    exists (evs1 ++ evs2). split.
    + rewrite Htrace2, Htrace1. now rewrite <- app_assoc.
    + rewrite write_calls_app, Hcalls1, Hcalls2, Hclock, Hticks. reflexivity.
Qed.

(** C7.  [change_output(B)] replaces the strategy the logger holds and
    nothing else: every other object, the files, the output, the clock
    and the trace written so far stay.  Every later call of [log], also
    after a call that raised, calls [write] once, on [B]; no other
    object, so not the strategy held before when that is another
    object, receives a [write]. *)
Theorem change_output_redirects (w : world) (self old B : loc) (cls : LogStrategy)
    (calls : list (text * text)) :
  heap w !! self = Some (OLogger old) ->
  heap w !! B = Some (OStrategy cls) ->
  let w1 := snd (change_output self B w) in
  change_output self B w = (Ok tt, set_heap (<[self := OLogger B]> (heap w)) w) /\
  heap w1 !! self = Some (OLogger B) /\
  (forall o, o <> self -> heap w1 !! o = heap w !! o) /\
  exists evs,
    trace (snd (log_each self calls w1)) = trace w ++ evs /\
    write_calls evs
    = map (fun line => (B, line))
          (formatted_lines (clock w) (S (clock_reads cls)) (ticks w) calls) /\
    (forall o line, In (o, line) (write_calls evs) -> o = B) /\
    (old <> B -> forall line, ~ In (old, line) (write_calls evs)).
Proof.
  intros Hself HB w1.
  assert (Hrun : change_output self B w
                 = (Ok tt, set_heap (<[self := OLogger B]> (heap w)) w)).
  { unfold change_output, set_strategy. now rewrite Hself. }
  subst w1. rewrite Hrun. cbn [snd].
  assert (Hne : B <> self) by (intros ->; congruence).
  assert (Hself1 : heap (set_heap (<[self := OLogger B]> (heap w)) w) !! self
                   = Some (OLogger B)).
  { cbn. apply list_lookup_insert_eq. now apply lookup_lt_Some in Hself. }
  assert (Hother : forall o, o <> self ->
            heap (set_heap (<[self := OLogger B]> (heap w)) w) !! o = heap w !! o).
  { intros o Ho. cbn. now apply list_lookup_insert_ne. }
  repeat split; auto.
  destruct (log_each_calls self B cls calls _ Hself1) as (evs & Htrace & Hcalls).
  { now rewrite Hother. }
  exists evs. cbn in Htrace, Hcalls. rewrite Hcalls. repeat split; auto.
  - intros o line Hin. apply in_map_iff in Hin as (l & Heq & _). congruence.
  - intros Hold line Hin. apply in_map_iff in Hin as (l & Heq & _). congruence.
Qed.

(** ** Sequences of calls through [JSONLogger] *)

(** ["logs.json"] holds exactly the list [items]: no file for the empty
    list, else the text [json.dump] writes for it. *)
Definition holds_logs (w : world) (items : list json) : Prop :=
  match items with
  | [] => fs w !! LOGS = None
  | _ :: _ => fs w !! LOGS = Some (File true true (json_dumps (JList items)))
  end.

Lemma log_json_step (w : world) (self s : loc) (level message : text)
    (items : list json) :
  heap w !! self = Some (OLogger s) ->
  heap w !! s = Some (OStrategy JSONLogger) ->
  holds_logs w items -> Forall wf_entry items ->
  let line := format_message (strftime (clock w (ticks w))) level message in
  let entry := make_entry (isoformat (clock w (S (ticks w)))) line in
  exists evs,
    log self level message w
    = (Ok tt, mk_world (heap w)
                (<[LOGS := File true true (json_dumps (JList (items ++ [entry])))]> (fs w))
                (stdout w) (clock w) (S (S (ticks w))) (trace w ++ evs)).
Proof.
  intros Hself Hs Hholds Hwf line entry.
  rewrite (log_run w self s JSONLogger) by assumption. fold line.
  cbn [write_method]. rewrite JSONLogger_write_outcome.
  unfold JSONLogger_outcome, at_call. cbn [heap fs stdout clock ticks trace].
  fold entry. destruct items as [|e items]; cbn [holds_logs] in Hholds; rewrite Hholds.
  - subst entry. rewrite dumps_first_encodable.
    eexists. rewrite <- app_assoc. reflexivity.
  - rewrite (loads_dumps_entries _ Hwf). subst entry.
    rewrite dumps_appended_encodable by exact Hwf.
    eexists. rewrite <- app_assoc. reflexivity.
Qed.

Lemma holds_logs_after (w : world) (items : list json) (e : json) (f : gmap string node) :
  f = <[LOGS := File true true (json_dumps (JList (items ++ [e])))]> (fs w) ->
  forall w', fs w' = f -> holds_logs w' (items ++ [e]).
Proof.
  intros -> w' Hfs. unfold holds_logs. rewrite Hfs, lookup_insert_eq.
  destruct items; reflexivity.
Qed.

Lemma entry_wf (d d' : datetime) (level message : text) :
  pair_free level -> pair_free message ->
  wf_entry (make_entry (isoformat d) (format_message (strftime d') level message)).
Proof.
  intros Hlevel Hmessage. eexists _, _. split; [reflexivity|]. split.
  - apply unicode_pair_free, isoformat_text.
  - apply format_message_pair_free; auto. apply strftime_text.
Qed.

Lemma log_all_json (self s : loc) (calls : list (text * text)) :
  forall (w : world) (items : list json),
    heap w !! self = Some (OLogger s) ->
    heap w !! s = Some (OStrategy JSONLogger) ->
    holds_logs w items -> Forall wf_entry items -> pair_free_calls calls ->
    let entries := items ++ json_entries (clock w) (ticks w) calls in
    exists w',
      log_all self calls w = (Ok tt, w') /\
      heap w' = heap w /\ clock w' = clock w /\
      ticks w' = (2 * length calls + ticks w)%nat /\
      holds_logs w' entries /\ Forall wf_entry entries.
Proof.
  induction calls as [|[level message] calls IH];
    intros w items Hself Hs Hholds Hwf Htexts entries; subst entries.
  - exists w. cbn [json_entries]. rewrite app_nil_r. repeat split; auto.
  - inversion Htexts as [|? ? [Hlevel Hmessage] Htexts']; subst. cbn [fst snd] in *.
    cbn [log_all json_entries]. unfold bind.
    destruct (log_json_step w self s level message items Hself Hs Hholds Hwf)
      as (evs & ->).
    set (entry := make_entry _ _). set (w1 := mk_world _ _ _ _ _ _).
    assert (Hentry : wf_entry entry) by now apply entry_wf.
    destruct (IH w1 (items ++ [entry])) as (w' & Hrun & Hheap & Hclock & Hticks & Hh & Hw);
      try assumption.
    { eapply holds_logs_after; reflexivity. }
    { apply Forall_app. split; [assumption|]. now constructor. }
    exists w'. rewrite Hrun. rewrite <- app_assoc in Hh, Hw.
    repeat split; auto. rewrite Hticks. cbn. lia.
Qed.

(** Each entry is the object with the two fields [timestamp] and
    [message], the second being the line formatted for the call. *)
Definition entry_of_line (e : json) (line : text) : Prop :=
  getitem e (lit "message") = Some (JStr line) /\
  exists ts, e = JDict [(lit "timestamp", JStr ts); (lit "message", JStr line)].

Lemma json_entries_lines (clk : nat -> datetime) (calls : list (text * text)) :
  forall t, Forall2 entry_of_line (json_entries clk t calls) (formatted_lines clk 2 t calls).
Proof.
  induction calls as [|[level message] calls IH]; intros t;
    cbn [json_entries formatted_lines]; constructor; auto.
  split; [reflexivity|]. eexists. reflexivity.
Qed.

Lemma json_entries_length (clk : nat -> datetime) (calls : list (text * text)) :
  forall t, length (json_entries clk t calls) = length calls.
Proof.
  induction calls as [|[level message] calls IH]; intros t;
    cbn [json_entries length]; [reflexivity|]. now rewrite IH.
Qed.

Lemma read_logs_holds (w : world) (items : list json) :
  holds_logs w items -> Forall wf_entry items -> fst (read_logs w) = Ok (JList items).
Proof.
  intros Hholds Hwf. destruct items as [|e items]; cbn [holds_logs] in Hholds.
  - now rewrite read_logs_missing.
  - rewrite (read_logs_present w _ Hholds), load_logs_outcome. unfold load_outcome.
    rewrite Hholds. cbn [fst]. now apply loads_dumps_entries.
Qed.

(** C4, amended.  From a missing ["logs.json"], [N] calls of [log]
    through [JSONLogger], with levels and messages in which no high
    surrogate is directly followed by a low surrogate, all return and
    leave in the file a JSON list of exactly [N] objects, in the order
    of the calls, the [message] of each being the line formatted for its
    call (for [N = 0] there is no file yet; the backend reads a missing
    file as the empty list).  The list only grows at its end: one more
    such call reads the [N] entries back unchanged and writes them
    again, in order, followed by its own. *)
Theorem json_logger_appends (w : world) (self s : loc) (calls : list (text * text)) :
  heap w !! self = Some (OLogger s) ->
  heap w !! s = Some (OStrategy JSONLogger) ->
  fs w !! LOGS = None ->
  pair_free_calls calls ->
  let lines := formatted_lines (clock w) 2 (ticks w) calls in
  let entries := json_entries (clock w) (ticks w) calls in
  let w' := snd (log_all self calls w) in
  fst (log_all self calls w) = Ok tt /\
  length entries = length calls /\
  Forall2 line_of_call lines calls /\
  Forall2 entry_of_line entries lines /\
  fst (read_logs w') = Ok (JList entries) /\
  (calls = [] -> fs w' !! LOGS = None) /\
  (calls <> [] ->
     exists data, fs w' !! LOGS = Some (File true true data) /\
                  json_loads data = Ok (JList entries)) /\
  (forall level message, pair_free level -> pair_free message ->
     let w2 := snd (log self level message w') in
     let line := format_message (strftime (clock w' (ticks w'))) level message in
     fst (log self level message w') = Ok tt /\
     exists data e,
       fs w2 !! LOGS = Some (File true true data) /\
       json_loads data = Ok (JList (entries ++ [e])) /\
       e = make_entry (isoformat (clock w' (S (ticks w')))) line /\
       entry_of_line e line).
Proof.
  intros Hself Hs Hfile Htexts lines entries w'. subst w'.
  destruct (log_all_json self s calls w [] Hself Hs Hfile (List.Forall_nil _) Htexts)
    as (w' & -> & Hheap & Hclock & Hticks & Hholds & Hwf).
  cbn [app] in Hholds, Hwf. fold entries in Hholds, Hwf. cbn [fst snd].
  split; [reflexivity|].
  split; [apply json_entries_length|].
  split; [apply formatted_lines_shape|].
  split; [apply json_entries_lines|].
  split; [now apply read_logs_holds|]. split; [|split].
  - intros ->. exact Hholds.
  - intros Hne. destruct entries as [|e es] eqn:He.
    + destruct calls as [|[] calls]; [congruence|discriminate He].
    + cbn [holds_logs] in Hholds. eexists. split; [exact Hholds|].
      now apply loads_dumps_entries.
  - intros level message Hlevel Hmessage.
    destruct (log_json_step w' self s level message entries) as (evs & ->);
      try assumption; try (now rewrite Hheap).
    cbn [fst snd fs]. split; [reflexivity|].
    eexists _, _. split; [apply lookup_insert_eq|]. split.
    + apply loads_dumps_entries, Forall_app. split; [assumption|].
      constructor; [|constructor]. now apply entry_wf.
    + split; [reflexivity|]. split; [reflexivity|]. eexists. reflexivity.
Qed.

(** ** The two timestamps of a structured entry *)







(** * Further properties of the code *)

(** ** [ConsoleLogger] *)

Lemma log_console_step (w : world) (self s : loc) (level message : text) :
  heap w !! self = Some (OLogger s) ->
  heap w !! s = Some (OStrategy ConsoleLogger) ->
  unicode_text level -> unicode_text message ->
  let line := format_message (strftime (clock w (ticks w))) level message in
  log self level message w
  = (Ok tt, mk_world (heap w) (fs w) (stdout w ++ line ++ NEWLINE) (clock w)
                     (S (ticks w)) (trace w ++ [EvCall s line; EvPrint line])).
Proof.
  intros Hself Hs Hlevel Hmessage line.
  rewrite (log_run w self s ConsoleLogger) by assumption.
  fold line. cbn [write_method]. rewrite ConsoleLogger_write_outcome.
  unfold ConsoleLogger_outcome, at_call. cbn [heap fs stdout clock ticks trace].
  subst line. rewrite format_message_encodable by assumption.
  now rewrite <- app_assoc.
Qed.

(** X1.  Calls of [log] through [ConsoleLogger] whose levels and
    messages hold no surrogates, so that standard output can encode
    them, all return: they print their lines, each followed by a
    newline, in the order of the calls after what was printed before,
    and touch no file. *)
Theorem console_logger_prints (self s : loc) (calls : list (text * text)) :
  forall w : world,
    heap w !! self = Some (OLogger s) ->
    heap w !! s = Some (OStrategy ConsoleLogger) ->
    texts_of_calls calls ->
    let lines := formatted_lines (clock w) 1 (ticks w) calls in
    let w' := snd (log_all self calls w) in
    fst (log_all self calls w) = Ok tt /\
    stdout w' = stdout w ++ concat (map (fun l => l ++ NEWLINE) lines) /\
    fs w' = fs w /\ heap w' = heap w /\
    ticks w' = (length calls + ticks w)%nat.
Proof.
  induction calls as [|[level message] calls IH]; intros w Hself Hs Htexts lines w';
    subst lines w'.
  - cbn. now rewrite app_nil_r.
  - inversion Htexts as [|? ? [Hlevel Hmessage] Htexts']; subst. cbn [fst snd] in *.
    cbn [log_all formatted_lines map concat length]. unfold bind.
    rewrite (log_console_step w self s) by assumption.
    set (line := format_message _ level message). set (w1 := mk_world _ _ _ _ _ _).
    destruct (IH w1 Hself Hs Htexts') as (Hok & Hout & Hfs & Hheap & Hticks).
    destruct (log_all self calls w1) as [r w2]. cbn [fst snd] in *.
    repeat split; auto.
    + rewrite Hout. subst w1. cbn [stdout clock ticks].
      now rewrite <- !app_assoc.
    + rewrite Hticks. subst w1. cbn [ticks]. lia.
Qed.

(** ** Making a logger *)

(** [Logger(create_logger(log_type))] *)
Definition Logger_of (log_type : text) : M loc :=
  strategy <- create_logger log_type ;;
  Logger_init strategy.

(** X2.  [Logger(create_logger(name))] for a name the factory knows
    makes two objects, the strategy and then the logger that holds it,
    and nothing else; the first [log] on the new logger calls [write]
    once, on the new strategy.  For any other name the [ValueError] of
    the factory goes on and no object is made. *)
Theorem Logger_of_wires (w : world) (name : text) (level message : text) :
  (forall cls, In (name, cls) recognized ->
     let s := length (heap w) in
     let w1 := set_heap (heap w ++ [OStrategy cls; OLogger s]) w in
     Logger_of name w = (Ok (S s), w1) /\
     exists evs, trace (snd (log (S s) level message w1)) = trace w ++ evs /\
                 write_calls evs
                 = [(s, format_message (strftime (clock w (ticks w))) level message)]) /\
  ((forall cls, ~ In (name, cls) recognized) ->
     Logger_of name w = (Raise (ValueError (lit "Unknown logger type: " ++ name)), w)).
Proof.
  split.
  - intros cls Hin s w1.
    assert (Hrun : Logger_of name w = (Ok (S s), w1)).
    { unfold Logger_of, bind, Logger_init, new.
      assert (Hc : create_logger name w = (Ok s, set_heap (heap w ++ [OStrategy cls]) w)).
      { cbn in Hin. destruct Hin as [H|[H|[H|[]]]]; inversion H; subst; reflexivity. }
      rewrite Hc. subst w1 s. unfold set_heap. cbn [heap fs stdout clock ticks trace].
      rewrite length_app, <- app_assoc. cbn [length app].
      now rewrite Nat.add_1_r. }
    split; [exact Hrun|].
    assert (Hs : heap w1 !! s = Some (OStrategy cls)).
    { subst w1. cbn [set_heap heap]. rewrite lookup_app_r by (subst s; lia).
      subst s. now rewrite Nat.sub_diag. }
    assert (Hl : heap w1 !! S s = Some (OLogger s)).
    { subst w1. cbn [set_heap heap]. rewrite lookup_app_r by (subst s; lia).
      subst s. now replace (S (length (heap w)) - length (heap w))%nat with 1%nat by lia. }
    now destruct (log_step w1 (S s) s cls level message Hl Hs) as (_ & _ & _ & H).
  - intros Hnot. unfold Logger_of, bind.
    assert (Hc : create_logger name w
                 = (Raise (ValueError (lit "Unknown logger type: " ++ name)), w)).
    { unfold create_logger.
      repeat case_bool_decide; subst; try reflexivity; exfalso.
      - apply (Hnot ConsoleLogger). cbn. auto.
      - apply (Hnot FileLogger). cbn. auto.
      - apply (Hnot JSONLogger). cbn. auto. }
    now rewrite Hc.
Qed.

(** ** When a strategy raises *)

(** X3.  Three ways in which [FileLogger.write] raises.  When
    ["app.log"] is a directory, or a file that may not be written, it
    raises [IsADirectoryError] or [PermissionError] at [open], and the
    directory is left as it was.  When ["app.log"] can be opened but the
    message holds a surrogate, it raises [UnicodeEncodeError] at
    [file.write], after [open]: a missing ["app.log"] has then been made
    and is empty, a file that was there keeps its content, and the file
    is closed. *)
Theorem FileLogger_write_raises (message : text) (w : world) :
  let r := fst (FileLogger_write message w) in
  let w' := snd (FileLogger_write message w) in
  (fs w !! APP_LOG = Some Dir ->
     r = Raise (IsADirectoryError APP_LOG) /\
     fs w' = fs w /\ trace w' = trace w ++ [EvOpen APP_LOG ModeA]) /\
  (forall rd data, fs w !! APP_LOG = Some (File rd false data) ->
     r = Raise (PermissionError APP_LOG) /\
     fs w' = fs w /\ trace w' = trace w ++ [EvOpen APP_LOG ModeA]) /\
  (writable_or_missing (fs w !! APP_LOG) -> encodable message = false ->
     r = Raise (UnicodeEncodeError (message ++ NEWLINE)) /\
     (fs w !! APP_LOG = None -> fs w' !! APP_LOG = Some (File true true [])) /\
     (forall n, fs w !! APP_LOG = Some n -> fs w' = fs w) /\
     (forall p, p <> APP_LOG -> fs w' !! p = fs w !! p) /\
     trace w' = trace w ++ [EvOpen APP_LOG ModeA; EvWrite APP_LOG (message ++ NEWLINE);
                            EvClose APP_LOG]).
Proof.
  rewrite FileLogger_write_outcome. unfold FileLogger_outcome.
  split; [|split].
  - intros ->. cbn. auto.
  - intros rd data ->. cbn. auto.
  - intros Hfile Hmessage.
    assert (Hline : encodable (message ++ NEWLINE) = false).
    { rewrite encodable_app, Hmessage. reflexivity. }
    rewrite Hline.
    destruct (fs w !! APP_LOG) as [[rd wr data|]|] eqn:Hnode;
      cbn [writable_or_missing] in Hfile; subst; try contradiction; cbn [fst snd fs trace].
    + repeat split; auto. discriminate.
    + repeat split; auto.
      * intros _. apply lookup_insert_eq.
      * discriminate.
      * intros p Hp. now apply lookup_insert_ne.
Qed.

(** X4.  [JSONLogger.write] changes the directory only after it has
    opened ["logs.json"] for writing: whenever it raises without having
    called [file.write] (the exception comes from an [open], from
    [json.load] or from [logs.append]), the directory is left as it
    was. *)
Theorem JSONLogger_write_raises_before_writing (message : text) (w : world) (e : exn) :
  fst (JSONLogger_write message w) = Raise e ->
  exists evs,
    trace (snd (JSONLogger_write message w)) = trace w ++ evs /\
    ((forall path data, ~ In (EvWrite path data) evs) ->
     fs (snd (JSONLogger_write message w)) = fs w).
Proof.
  rewrite JSONLogger_write_outcome. unfold JSONLogger_outcome.
  destruct (fs w !! LOGS) as [[[|] [|] data|]|]; try case_encodable;
    cbn [fst snd fs trace]; try discriminate;
    try (destruct (json_loads data) as [[]|]; try case_encodable;
         cbn [fst snd fs trace]; try discriminate);
    intros _; eexists; (split; [reflexivity|]); intros Hnone;
    first [ reflexivity
          | exfalso; eapply Hnone; apply in_or_app; right; cbn; eauto ].
Qed.

(** The opening brackets of a text: a bound on how deep it nests. *)
Definition brackets (s : text) : nat :=
  length (filter (fun c => (c =? ord "[") || (c =? ord "{")) s).

(** X5.  When ["logs.json"] holds valid JSON that is not a list (an
    object, a number, a string, [null], ...), with at most a hundred
    opening brackets, so that it nests far less deep than the
    interpreter lets the decoder recurse, [JSONLogger.write] raises
    [AttributeError] at [logs.append], after the file was read and
    closed and before it is opened for writing: the file keeps its
    content. *)
Theorem JSONLogger_write_not_a_list (message : text) (w : world) (wr : bool)
    (data : text) (v : json) :
  fs w !! LOGS = Some (File true wr data) ->
  (brackets data <= 100)%nat ->
  json_loads data = Ok v ->
  (forall items, v <> JList items) ->
  JSONLogger_write message w
  = (Raise (AttributeError "object has no attribute 'append'"),
     mk_world (heap w) (fs w) (stdout w) (clock w) (S (ticks w))
              (trace w ++ [EvOpen LOGS ModeR; EvRead LOGS; EvClose LOGS])).
Proof.
  intros Hfile _ Hload Hnot. rewrite JSONLogger_write_outcome. unfold JSONLogger_outcome.
  rewrite Hfile, Hload. destruct v; try reflexivity. now destruct (Hnot items).
Qed.

(** ** [JSONLogger] on a file from an earlier run *)

(** X6.  When ["logs.json"] already holds a list of entries as
    [JSONLogger.write] writes them, from an earlier run, a sequence of
    calls keeps them, unchanged and in order, and adds its own entries
    after them.  This is for texts, in the earlier entries and in the
    levels and messages of the calls, in which no high surrogate is
    directly followed by a low surrogate. *)
Theorem json_logger_keeps_earlier_entries (w : world) (self s : loc)
    (earlier : list json) (calls : list (text * text)) :
  heap w !! self = Some (OLogger s) ->
  heap w !! s = Some (OStrategy JSONLogger) ->
  earlier <> [] ->
  Forall wf_entry earlier ->
  fs w !! LOGS = Some (File true true (json_dumps (JList earlier))) ->
  pair_free_calls calls ->
  let w' := snd (log_all self calls w) in
  let entries := earlier ++ json_entries (clock w) (ticks w) calls in
  fst (log_all self calls w) = Ok tt /\
  fs w' !! LOGS = Some (File true true (json_dumps (JList entries))) /\
  json_loads (json_dumps (JList entries)) = Ok (JList entries).
Proof.
  intros Hself Hs Hne Hwf Hfile Htexts w' entries. subst w'.
  assert (Hholds : holds_logs w earlier).
  { destruct earlier; [congruence|exact Hfile]. }
  destruct (log_all_json self s calls w earlier Hself Hs Hholds Hwf Htexts)
    as (w' & -> & _ & _ & _ & Hh & Hw).
  fold entries in Hh, Hw. cbn [fst snd]. split; [reflexivity|]. split.
  - destruct entries as [|e es] eqn:He; [|exact Hh].
    subst entries. destruct earlier; [congruence|discriminate He].
  - now apply loads_dumps_entries.
Qed.

(** ** Strategies have no state of their own *)

(** X7.  What a call of [log] does to the files, the output and the
    clock depends on the class of the strategy only, not on which
    object it is or which logger holds it: two loggers on two
    strategies of one class give the same result and leave the same
    directory, output and clock count. *)
Theorem strategies_are_stateless (w : world) (self1 self2 s1 s2 : loc)
    (cls : LogStrategy) (level message : text) :
  heap w !! self1 = Some (OLogger s1) -> heap w !! s1 = Some (OStrategy cls) ->
  heap w !! self2 = Some (OLogger s2) -> heap w !! s2 = Some (OStrategy cls) ->
  let w1 := snd (log self1 level message w) in
  let w2 := snd (log self2 level message w) in
  fst (log self1 level message w) = fst (log self2 level message w) /\
  fs w1 = fs w2 /\ stdout w1 = stdout w2 /\ ticks w1 = ticks w2 /\ heap w1 = heap w2.
Proof.
  intros H1 Hs1 H2 Hs2 w1 w2. subst w1 w2.
  rewrite (log_run w self1 s1 cls), (log_run w self2 s2 cls) by assumption.
  set (line := format_message _ level message). unfold at_call.
  destruct cls; cbn [write_method].
  - repeat match goal with
           | |- context [ConsoleLogger_write ?m ?W] =>
               rewrite (ConsoleLogger_write_outcome m W)
           end.
    unfold ConsoleLogger_outcome. case_encodable; cbn; auto.
  - repeat match goal with
           | |- context [FileLogger_write ?m ?W] =>
               rewrite (FileLogger_write_outcome m W)
           end.
    unfold FileLogger_outcome.
    cbn [heap fs stdout clock ticks trace].
    destruct (fs w !! APP_LOG) as [[rd [|] data|]|]; try case_encodable; cbn; auto.
  - repeat match goal with
           | |- context [JSONLogger_write ?m ?W] =>
               rewrite (JSONLogger_write_outcome m W)
           end.
    unfold JSONLogger_outcome.
    cbn [heap fs stdout clock ticks trace].
    destruct (fs w !! LOGS) as [[[|] [|] data|]|]; try case_encodable; cbn; auto;
      destruct (json_loads data) as [[]|]; try case_encodable; cbn; auto.
Qed.

(** ** A logger on something that is no strategy *)

(** X8.  [Logger] takes any object as its strategy.  When that object
    has no [write] (here: it is itself a logger), each [log] raises
    [AttributeError]; the clock has been read by then, but no [write]
    is called, no file is touched and nothing is printed. *)
Theorem log_without_write_method (w : world) (self s inner : loc)
    (level message : text) :
  heap w !! self = Some (OLogger s) ->
  heap w !! s = Some (OLogger inner) ->
  log self level message w
  = (Raise (AttributeError "object has no attribute 'write'"),
     mk_world (heap w) (fs w) (stdout w) (clock w) (S (ticks w)) (trace w)).
Proof.
  intros Hself Hs. unfold log, get_strategy, call_write. unfold_monad. cbn.
  rewrite Hself. cbn. now rewrite Hs.
Qed.

(** ** Changing the strategy back *)

(** X9.  [change_output] to another strategy and then back to the
    former one gives back the world as it was; and of two changes in a
    row only the second counts. *)
Theorem change_output_back (w : world) (self old B C : loc) :
  heap w !! self = Some (OLogger old) ->
  (change_output self B ;;; change_output self old) w = (Ok tt, w) /\
  (change_output self B ;;; change_output self C) w = change_output self C w.
Proof.
  intros Hself. pose proof (lookup_lt_Some _ _ _ Hself) as Hlt.
  unfold bind, change_output, set_strategy. rewrite Hself.
  cbn [heap set_heap]. rewrite list_lookup_insert_eq by exact Hlt.
  rewrite !list_insert_insert_eq. split; [|reflexivity].
  rewrite list_insert_id by exact Hself. now destruct w.
Qed.


(** ** The text of ["logs.json"] after a call *)

(** X10.  The text a call of [log] through [JSONLogger] leaves in a new
    ["logs.json"] is ASCII only, whatever characters the level and the
    message hold: [json.dump] escapes every other character.  The same
    holds after any number of calls whose levels and messages hold no
    high surrogate directly followed by a low surrogate. *)
Theorem logs_json_is_ascii (w : world) (self s : loc) :
  heap w !! self = Some (OLogger s) ->
  heap w !! s = Some (OStrategy JSONLogger) ->
  fs w !! LOGS = None ->
  (forall level message,
     exists data,
       fs (snd (log self level message w)) !! LOGS = Some (File true true data) /\
       Forall is_ascii data) /\
  (forall calls, pair_free_calls calls -> calls <> [] ->
     exists data,
       fs (snd (log_all self calls w)) !! LOGS = Some (File true true data) /\
       Forall is_ascii data).
Proof.
  intros Hself Hs Hfile. split.
  - intros level message.
    destruct (log_json_step w self s level message [] Hself Hs Hfile (List.Forall_nil _))
      as (evs & ->).
    cbn [snd fs]. eexists. split; [apply lookup_insert_eq|].
    apply dumps_entries_ascii. repeat constructor. eauto.
  - intros calls Htexts Hne.
    destruct (log_all_json self s calls w [] Hself Hs Hfile (List.Forall_nil _) Htexts)
      as (w' & -> & _ & _ & _ & Hholds & Hwf).
    cbn [app snd] in *.
    destruct (json_entries (clock w) (ticks w) calls) as [|e es] eqn:He.
    { destruct calls as [|[] calls]; [congruence|discriminate He]. }
    cbn [holds_logs] in Hholds. eexists. split; [exact Hholds|].
    apply dumps_entries_ascii. eapply Forall_impl; [exact Hwf|].
    intros x (ts & msg & -> & _). eauto.
Qed.

(** ** Lines of ["app.log"] *)

(** The number of newline characters of a text. *)
Definition newlines (s : text) : nat := count_occ N.eq_dec s 10.

Lemma newlines_app (s t : text) : newlines (s ++ t) = (newlines s + newlines t)%nat.
Proof. apply count_occ_app. Qed.

Lemma newlines_fmt_d (w : nat) (n : N) : newlines (fmt_d w n) = 0%nat.
Proof.
  unfold newlines. apply count_occ_not_In. intros Hin.
  pose proof (fmt_d_digits w n) as Hd. rewrite List.Forall_forall in Hd.
  specialize (Hd 10 Hin). discriminate Hd.
Qed.

Lemma newlines_decimal (n : N) : newlines (decimal n) = 0%nat.
Proof.
  unfold newlines. apply count_occ_not_In. intros Hin.
  pose proof (decimal_digits n) as Hd. rewrite List.Forall_forall in Hd.
  specialize (Hd 10 Hin). discriminate Hd.
Qed.

Lemma newlines_strftime (d : datetime) : newlines (strftime d) = 0%nat.
Proof.
  unfold strftime. rewrite !newlines_app, !newlines_fmt_d, newlines_decimal. reflexivity.
Qed.

(** X11.  [FileLogger] writes the formatted text as it is.  When
    ["app.log"] can be opened for appending and the level and the
    message hold no surrogates, a call adds to the file one newline
    more than the level and the message hold together, so exactly one
    line when they hold none. *)
Theorem file_logger_line_breaks (w : world) (self s : loc) (level message : text) :
  heap w !! self = Some (OLogger s) ->
  heap w !! s = Some (OStrategy FileLogger) ->
  writable_or_missing (fs w !! APP_LOG) ->
  unicode_text level -> unicode_text message ->
  exists added,
    content (fs (snd (log self level message w)) !! APP_LOG)
    = content (fs w !! APP_LOG) ++ added /\
    newlines added = (1 + newlines level + newlines message)%nat.
Proof.
  intros Hself Hs Hfile Hlevel Hmessage. rewrite (log_file_step w self s) by assumption.
  cbn [snd fs]. rewrite lookup_insert_eq.
  exists (format_message (strftime (clock w (ticks w))) level message ++ NEWLINE).
  split.
  - destruct (fs w !! APP_LOG) as [[rd wr data|]|];
      cbn [writable_or_missing] in Hfile; try contradiction; reflexivity.
  - unfold format_message. rewrite !newlines_app, newlines_strftime.
    change (newlines (lit "[")) with 0%nat. change (newlines (lit "] ")) with 0%nat.
    change (newlines (lit ": ")) with 0%nat. change (newlines NEWLINE) with 1%nat.
    lia.
Qed.

(** ** Surrogates in a message *)

(** X12.  A text that holds a high surrogate directly followed by a low
    surrogate is not read back as it was written: [json.dumps] writes
    the two as two escapes, and [json.loads] reads two such escapes as
    the one character above U+FFFF they stand for. *)
Theorem surrogate_pair_is_joined (hi lo : N) :
  is_high_surrogate hi = true -> is_low_surrogate lo = true ->
  json_loads (json_dumps (JStr [hi; lo]))
  = Ok (JStr [0x10000 + N.lor (N.shiftl (hi - 0xd800) 10) (lo - 0xdc00)]).
Proof.
  intros Hhi Hlo.
  assert (Hh : 0xd800 <= hi <= 0xdbff).
  { apply andb_true_iff in Hhi as [H1%N.leb_le H2%N.leb_le]. lia. }
  assert (Hl : 0xdc00 <= lo <= 0xdfff).
  { apply andb_true_iff in Hlo as [H1%N.leb_le H2%N.leb_le]. lia. }
  assert (Hencode : forall c, 0xd800 <= c <= 0xdfff -> encode_char c = escape_u c).
  { intros c Hc. unfold encode_char, QUOTE, BACKSLASH.
    repeat match goal with
           | |- context [?x =? ?y] =>
               rewrite (proj2 (N.eqb_neq x y)) by lia
           end.
    replace ((32 <=? c) && (c <=? 126)) with false
      by (symmetry; apply andb_false_iff; right; apply N.leb_gt; lia).
    now replace (c <? 0x10000) with true by (symmetry; apply N.ltb_lt; lia). }
  assert (Hscan : scanstring (escape_u hi ++ escape_u lo ++ [QUOTE])
                  = Ok ([0x10000 + N.lor (N.shiftl (hi - 0xd800) 10) (lo - 0xdc00)], [])).
  { unfold escape_u at 1, hex4. cbn [app scanstring].
    change (BACKSLASH =? QUOTE) with false.
    change (BACKSLASH =? BACKSLASH) with true. change (ord "u" =? ord "u") with true.
    cbv iota. rewrite decode_hex4 by lia.
    unfold escape_u, hex4. cbn [app]. rewrite Hhi.
    change (BACKSLASH =? BACKSLASH) with true. change (ord "u" =? ord "u") with true.
    cbn [andb]. cbv iota. rewrite decode_hex4 by lia. rewrite Hlo. reflexivity. }
  unfold json_dumps. cbn [iterencode]. unfold encode_basestring_ascii.
  cbn [flat_map]. rewrite !Hencode by lia. rewrite app_nil_r.
  unfold json_loads.
  match goal with
  | |- context [scan_once ?f _] =>
      replace f with (S (f - 1)) by (cbn [length]; lia); generalize (f - 1)%nat
  end.
  intros fuel. cbn [app strip_prefix]. unfold QUOTE at 1.
  change (65279 =? 34) with false. cbv iota.
  change (skip_ws (QUOTE :: (escape_u hi ++ escape_u lo) ++ [QUOTE]))
    with (QUOTE :: (escape_u hi ++ escape_u lo) ++ [QUOTE]).
  cbn [scan_once]. change (QUOTE =? QUOTE) with true. cbv iota.
  rewrite <- app_assoc, Hscan. reflexivity.
Qed.

(** ** The demonstration *)

(** ["\n" + "-"*30 + "\n"] *)
Definition RULE : text := NEWLINE ++ concat (repeat (lit "-") 30) ++ NEWLINE.

(** [demo] *)
Definition demo : M unit :=
  print (lit "=== Simple Logger Demo ===" ++ NEWLINE) ;;;
  print (lit "1. Logging to console:") ;;;
  console_strategy <- create_logger (lit "console") ;;
  logger <- Logger_init console_strategy ;;
  info logger (lit "App started") ;;;
  warning logger (lit "Low memory") ;;;
  error logger (lit "File not found") ;;;
  print RULE ;;;
  print (lit "2. Switching to file logging:") ;;;
  file_strategy <- create_logger (lit "file") ;;
  change_output logger file_strategy ;;;
  info logger (lit "Now logging to file") ;;;
  error logger (lit "Database connection failed") ;;;
  print (lit "Check 'app.log' file!") ;;;
  print RULE ;;;
  print (lit "3. Switching to JSON logging:") ;;;
  json_strategy <- create_logger (lit "json") ;;
  change_output logger json_strategy ;;;
  info logger (lit "Now logging to JSON") ;;;
  warning logger (lit "API rate limit reached") ;;;
  print (lit "Check 'logs.json' file!") ;;;
  print RULE ;;;
  print (lit "4. Using multiple loggers at once:") ;;;
  console_logger <- Logger_of (lit "console") ;;
  file_logger <- Logger_of (lit "file") ;;
  info console_logger (lit "This goes to console") ;;;
  info file_logger (lit "This goes to file") ;;;
  print (NEWLINE ++ lit "Done! Check the files to see the saved logs.").

Section Run.

Context {h : list pyobj} {f : gmap string node} {o : text}
        {c : nat -> datetime} {t : nat} {r : list event}.

Lemma run_print (s : text) :
  encodable s = true ->
  print s (mk_world h f o c t r)
  = (Ok tt, mk_world h f (o ++ s ++ NEWLINE) c t (r ++ [EvPrint s])).
Proof. intros Hs. unfold print. unfold_monad. cbn. now rewrite Hs. Qed.

Lemma run_create (name : text) (cls : LogStrategy) :
  In (name, cls) recognized ->
  create_logger name (mk_world h f o c t r)
  = (Ok (length h), mk_world (h ++ [OStrategy cls]) f o c t r).
Proof.
  intros Hin. cbn in Hin. destruct Hin as [H|[H|[H|[]]]]; inversion H; subst; reflexivity.
Qed.

Lemma run_init (s : loc) :
  Logger_init s (mk_world h f o c t r)
  = (Ok (length h), mk_world (h ++ [OLogger s]) f o c t r).
Proof. reflexivity. Qed.

Lemma run_change (self old B : loc) :
  h !! self = Some (OLogger old) ->
  change_output self B (mk_world h f o c t r)
  = (Ok tt, mk_world (<[self := OLogger B]> h) f o c t r).
Proof. intros H. unfold change_output, set_strategy. cbn. now rewrite H. Qed.

Lemma run_log_console (self s : loc) (level message : text) :
  h !! self = Some (OLogger s) -> h !! s = Some (OStrategy ConsoleLogger) ->
  encodable level = true -> encodable message = true ->
  let line := format_message (strftime (c t)) level message in
  log self level message (mk_world h f o c t r)
  = (Ok tt, mk_world h f (o ++ line ++ NEWLINE) c (S t)
                     (r ++ [EvCall s line; EvPrint line])).
Proof.
  intros H1 H2 H3%encodable_text H4%encodable_text.
  now apply (log_console_step (mk_world h f o c t r)).
Qed.

Lemma run_log_file (self s : loc) (level message : text) :
  h !! self = Some (OLogger s) -> h !! s = Some (OStrategy FileLogger) ->
  writable_or_missing (f !! APP_LOG) ->
  encodable level = true -> encodable message = true ->
  let line := format_message (strftime (c t)) level message in
  log self level message (mk_world h f o c t r)
  = (Ok tt, mk_world h (<[APP_LOG := appended (f !! APP_LOG) (line ++ NEWLINE)]> f)
                     o c (S t) (r ++ file_cycle s line)).
Proof.
  intros H1 H2 H3 H4%encodable_text H5%encodable_text.
  now apply (log_file_step (mk_world h f o c t r)).
Qed.

End Run.

Lemma log_json_calls (w : world) (self s : loc) (level message : text)
    (items : list json) :
  heap w !! self = Some (OLogger s) -> heap w !! s = Some (OStrategy JSONLogger) ->
  holds_logs w items -> Forall wf_entry items ->
  let line := format_message (strftime (clock w (ticks w))) level message in
  let entry := make_entry (isoformat (clock w (S (ticks w)))) line in
  exists evs,
    log self level message w
    = (Ok tt, mk_world (heap w)
                (<[LOGS := File true true (json_dumps (JList (items ++ [entry])))]> (fs w))
                (stdout w) (clock w) (S (S (ticks w))) (trace w ++ evs)) /\
    write_calls evs = [(s, line)].
Proof.
  intros H1 H2 H3 H4 line entry.
  destruct (log_json_step w self s level message items H1 H2 H3 H4) as (evs & Hrun).
  exists evs. split; [exact Hrun|].
  destruct (log_step w self s JSONLogger level message H1 H2)
    as (_ & _ & _ & evs' & Htrace & Hcalls).
  rewrite Hrun in Htrace. cbn [snd trace] in Htrace.
  apply app_inv_head in Htrace. now subst evs'.
Qed.

Lemma heap_at (H tl : list pyobj) (k : nat) :
  (H ++ tl) !! (length H + k)%nat = tl !! k.
Proof. rewrite lookup_app_r by lia. f_equal. lia. Qed.

Lemma heap_at0 (H tl : list pyobj) : (H ++ tl) !! length H = tl !! 0%nat.
Proof. rewrite <- (heap_at H tl 0). f_equal. lia. Qed.

Lemma heap_set (H tl : list pyobj) (k : nat) (x : pyobj) :
  <[(length H + k)%nat := x]> (H ++ tl) = H ++ <[k := x]> tl.
Proof. apply insert_app_r. Qed.

Tactic Notation "step_with" uconstr(lem) :=
  unfold bind at 1; rewrite lem; cbv beta iota.

Ltac norm :=
  repeat rewrite <- app_assoc; rewrite ?length_app; cbn [length app].

Ltac lk :=
  cbn [heap]; first [rewrite heap_at; reflexivity | rewrite heap_at0; reflexivity].

Ltac step_print :=
  unfold bind at 1; rewrite run_print by reflexivity; cbv beta iota.

Ltac step_log :=
  unfold bind at 1;
  first [ erewrite run_log_console; cycle 1; [lk | lk | reflexivity | reflexivity |]
        | erewrite run_log_file; cycle 1; [lk | lk | | reflexivity | reflexivity |] ];
  cbv beta iota zeta.

Lemma appended_writable (n : option node) (s : text) :
  writable_or_missing n -> writable_or_missing (Some (appended n s)).
Proof. destruct n as [[rd wr data|]|]; cbn; auto. Qed.

Lemma content_appended (n : option node) (s : text) :
  writable_or_missing n -> content (Some (appended n s)) = content n ++ s.
Proof. destruct n as [[rd wr data|]|]; cbn; intros; (reflexivity || contradiction). Qed.

Lemma logs_not_app_log : APP_LOG <> LOGS.
Proof. discriminate. Qed.

Ltac files :=
  repeat first [ rewrite lookup_insert_eq
               | rewrite (lookup_insert_ne _ APP_LOG LOGS) by exact logs_not_app_log
               | rewrite (lookup_insert_ne _ LOGS APP_LOG)
                   by (intros E; symmetry in E; exact (logs_not_app_log E)) ].

(** X13.  With ["app.log"] missing or writable and no ["logs.json"],
    [demo] returns normally.  It makes eight objects, reads the clock
    eleven times and calls [write] nine times: three times on the first
    console strategy, twice on the first file strategy, twice on the
    JSON strategy, then once on each strategy of the two further
    loggers.  It appends three lines to ["app.log"], after what the file
    held, and leaves the two entries of part 3 in ["logs.json"]. *)
Theorem demo_runs (w : world) :
  writable_or_missing (fs w !! APP_LOG) ->
  fs w !! LOGS = None ->
  let a := length (heap w) in
  let line (k : nat) (level message : string) :=
    format_message (strftime (clock w (k + ticks w)%nat)) (lit level) (lit message) in
  exists w' evs,
    demo w = (Ok tt, w') /\
    content (fs w' !! APP_LOG)
    = content (fs w !! APP_LOG)
      ++ (line 3%nat "INFO" "Now logging to file" ++ NEWLINE)
      ++ (line 4%nat "ERROR" "Database connection failed" ++ NEWLINE)
      ++ (line 10%nat "INFO" "This goes to file" ++ NEWLINE) /\
    fs w' !! LOGS
    = Some (File true true (json_dumps (JList
        [make_entry (isoformat (clock w (6 + ticks w)%nat))
                    (line 5%nat "INFO" "Now logging to JSON");
         make_entry (isoformat (clock w (8 + ticks w)%nat))
                    (line 7%nat "WARNING" "API rate limit reached")]))) /\
    trace w' = trace w ++ evs /\
    map fst (write_calls evs)
    = [a; a; a; a + 2; a + 2; a + 3; a + 3; a + 4; a + 6]%nat /\
    length (heap w') = (a + 8)%nat /\
    ticks w' = (11 + ticks w)%nat.
Proof.
  destruct w as [H F O C T R]. cbn [fs heap clock ticks trace].
  intros Happ Hlogs. cbv zeta.
  unfold demo, info, warning, error, Logger_of.
  step_print. step_print.
  step_with (run_create (lit "console") ConsoleLogger); [|cbn; auto].
  step_with run_init. norm.
  step_log. step_log. step_log.
  step_print. step_print.
  step_with (run_create (lit "file") FileLogger); [|cbn; auto]. norm.
  step_with (run_change (length H + 1)%nat (length H)); [|lk].
  rewrite heap_set. cbn [insert list_insert].
  step_log; [exact Happ|].
  step_log; [files; now apply appended_writable|]. files.
  step_print. step_print. step_print.
  step_with (run_create (lit "json") JSONLogger); [|cbn; auto]. norm.
  step_with (run_change (length H + 1)%nat (length H + 2)%nat); [|lk].
  rewrite heap_set. cbn [insert list_insert].
  unfold bind at 1.
  match goal with
  | |- context [log ?self ?lv ?msg ?W] =>
      destruct (log_json_calls W self (length H + 3)%nat lv msg [])
        as (evs1 & Hrun1 & Hcalls1);
        [lk | lk | cbn [holds_logs fs]; files; exact Hlogs | constructor |]
  end.
  cbn [heap fs stdout clock ticks trace app] in Hrun1. rewrite Hrun1. clear Hrun1.
  cbv beta iota zeta.
  unfold bind at 1.
  match goal with
  | |- context [log ?self ?lv ?msg ?W] =>
      match W with
      | context [json_dumps (JList ?items)] =>
          destruct (log_json_calls W self (length H + 3)%nat lv msg items)
            as (evs2 & Hrun2 & Hcalls2);
            [lk | lk | cbn [holds_logs fs]; files; reflexivity | |]
      end
  end.
  { constructor; [|constructor].
    apply entry_wf; apply pair_free_check; reflexivity. }
  cbn [heap fs stdout clock ticks trace app] in Hrun2. rewrite Hrun2. clear Hrun2.
  cbv beta iota zeta. rewrite insert_insert_eq.
  step_print. step_print. step_print.
  unfold bind at 1. unfold bind at 1.
  rewrite (run_create (lit "console") ConsoleLogger) by (cbn; auto).
  cbv beta iota. rewrite run_init. cbv beta iota. norm.
  unfold bind at 1. unfold bind at 1.
  rewrite (run_create (lit "file") FileLogger) by (cbn; auto).
  cbv beta iota. rewrite run_init. cbv beta iota. norm.
  step_log.
  step_log; [files; now do 2 apply appended_writable|]. files.
  rewrite run_print by reflexivity.
  cbn [clock ticks] in Hcalls1, Hcalls2.
  eexists _, _. split; [reflexivity|]. cbn [fs heap ticks trace].
  split; [|split; [|split; [|split; [|split]]]].
  - files. rewrite !content_appended by (repeat apply appended_writable; exact Happ).
    now rewrite <- !app_assoc.
  - files. reflexivity.
  - norm. reflexivity.
  - repeat (rewrite write_calls_app || cbn [write_calls file_cycle app]).
    rewrite Hcalls1, Hcalls2. reflexivity.
  - rewrite length_app. reflexivity.
  - reflexivity.
Qed.
End Logger.

(** * The theorems at concrete worlds *)

(** A float is carried as the literal it was read from. *)
Definition literal_float (s : list N) : list N := s.
Definition literal_repr (f : list N) : list N := f.

Definition demo_clock (n : nat) : datetime :=
  mk_datetime 2024 3 9 7 5 (N.of_nat n) 123.

(** A strategy of class [cls] at address 0, a logger on it at address
    1, and the directory [dir]. *)
Definition demo_world (cls : LogStrategy) (dir : gmap string node) : world :=
  mk_world [OStrategy cls; OLogger 0] dir [] demo_clock 0 [].

Definition demo_calls : list (list N * list N) :=
  [(lit "INFO", lit "App started"); (lit "ERROR", lit "File not found")].

Definition broken_dir : gmap string node :=
  {[ "logs.json"%string := File true true (lit "not json") ]}.

Definition two_strategies : world :=
  mk_world [OStrategy ConsoleLogger; OLogger 0; OStrategy FileLogger] ∅ []
           demo_clock 0 [].

Tactic Notation "hyps" integer(n) :=
  do n (split; [first [reflexivity | assumption | exact I]|]).

Lemma demo_calls_texts : texts_of_calls demo_calls.
Proof. repeat constructor; apply forallb_text; reflexivity. Defined.

Lemma demo_calls_pair_free : pair_free_calls demo_calls.
Proof.
  unfold pair_free_calls, demo_calls.
  constructor; [split; apply pair_free_check; reflexivity|].
  constructor; [split; apply pair_free_check; reflexivity|]. constructor.
Defined.



(** A directory in the place of ["app.log"]. *)
Definition dir_at_app_log : gmap string node := {[ "app.log"%string := Dir ]}.



Lemma create_logger_recognized_witness :
  In (lit "json", JSONLogger) recognized /\
  exists l w', create_logger (lit "json") (demo_world ConsoleLogger ∅) = (Ok l, w') /\
               heap w' !! l = Some (OStrategy JSONLogger).
Proof.
  assert (Hin : In (lit "json", JSONLogger) recognized) by (cbn; auto).
  split; [exact Hin|].
  destruct (create_logger_recognized (demo_world ConsoleLogger ∅) (lit "json")
              JSONLogger Hin) as (l & w' & Hrun & _ & Hnew & _).
  exists l, w'. split; assumption.
Defined.

Lemma create_logger_unrecognized_witness :
  (forall cls, ~ In (lit "bogus", cls) recognized) /\
  create_logger (lit "bogus") (demo_world ConsoleLogger ∅)
  = (Raise (ValueError (lit "Unknown logger type: bogus")), demo_world ConsoleLogger ∅).
Proof.
  assert (Hnot : forall cls, ~ In (lit "bogus", cls) recognized).
  { intros cls Hin. vm_compute in Hin. intuition discriminate. }
  split; [exact Hnot|].
  exact (create_logger_unrecognized (demo_world ConsoleLogger ∅) (lit "bogus") Hnot).
Defined.

(** C4 as stated fails for a message that holds a high surrogate
    directly followed by a low one: the call passes to [write] a line
    that ends with the two, and the [message] which the file holds
    afterwards ends with the one character U+1F600 they stand for.  It
    also fails for [N = 0]: no call, no file. *)
Lemma json_logger_appends_counterexample :
  let w := demo_world JSONLogger ∅ in
  let message := [0xD83D; 0xDE00] in
  let line := format_message (strftime (clock w (ticks w))) (lit "INFO") message in
  let w' := snd (log_all literal_float literal_repr 1 [(lit "INFO", message)] w) in
  heap w !! 1%nat = Some (OLogger 0) /\
  heap w !! 0%nat = Some (OStrategy JSONLogger) /\
  fs w !! LOGS = None /\
  fst (log_all literal_float literal_repr 1 [(lit "INFO", message)] w) = Ok tt /\
  write_calls (trace w') = [(0%nat, line)] /\
  line = lit "[2024-03-09 07:05:00] INFO: " ++ [0xD83D; 0xDE00] /\
  (exists data ts stored,
     fs w' !! LOGS = Some (File true true data) /\
     json_loads literal_float data
     = Ok (JList [JDict [(lit "timestamp", JStr ts); (lit "message", JStr stored)]]) /\
     stored = lit "[2024-03-09 07:05:00] INFO: " ++ [0x1F600] /\
     stored <> line) /\
  fs (snd (log_all literal_float literal_repr 1 [] w)) !! LOGS = None.
Proof.
  intros w message line w'.
  do 6 (split; [vm_compute; reflexivity|]). split; [|reflexivity].
  eexists _, _, _. split; [vm_compute; reflexivity|].
  split; [vm_compute; reflexivity|]. split; [reflexivity|].
  vm_compute. discriminate.
Qed.

Lemma json_logger_appends_witness :
  let w := demo_world JSONLogger ∅ in
  heap w !! 1%nat = Some (OLogger 0) /\
  heap w !! 0%nat = Some (OStrategy JSONLogger) /\
  fs w !! LOGS = None /\
  pair_free_calls demo_calls /\
  fst (log_all literal_float literal_repr 1 demo_calls w) = Ok tt /\
  fst (read_logs literal_float (snd (log_all literal_float literal_repr 1 demo_calls w)))
  = Ok (JList (json_entries (clock w) (ticks w) demo_calls)).
Proof.
  intros w. pose proof demo_calls_pair_free as Htexts. hyps 4. split.
  - exact (proj1 (json_logger_appends literal_float literal_repr w 1 0 demo_calls
                    eq_refl eq_refl eq_refl demo_calls_pair_free)).
  - exact (proj1 (proj2 (proj2 (proj2 (proj2
             (json_logger_appends literal_float literal_repr w 1 0 demo_calls
                eq_refl eq_refl eq_refl demo_calls_pair_free)))))).
Defined.

Lemma load_failure_propagates_witness :
  let w := demo_world JSONLogger broken_dir in
  heap w !! 1%nat = Some (OLogger 0) /\
  heap w !! 0%nat = Some (OStrategy JSONLogger) /\
  fs w !! LOGS = Some (File true true (lit "not json")) /\
  json_loads literal_float (lit "not json") = Raise (JSONDecodeError "Expecting value") /\
  fst (log literal_float literal_repr 1 (lit "INFO") (lit "x") w)
  = Raise (JSONDecodeError "Expecting value").
Proof.
  intros w. hyps 4.
  exact (proj2 (proj2 (proj2 (proj2
           (load_failure_propagates literal_float literal_repr w 1 0 (lit "INFO")
              (lit "x") eq_refl eq_refl)))
           true (lit "not json") (JSONDecodeError "Expecting value") eq_refl eq_refl)).
Defined.

(** C6 as stated fails for a message that holds a surrogate: the call
    raises [UnicodeEncodeError] at [file.write] and leaves the new
    ["app.log"] empty, with no line in it.  It also fails when
    ["app.log"] is a directory: the call raises at [open]. *)
Lemma file_logger_appends_counterexample :
  let w := demo_world FileLogger ∅ in
  let line := format_message (strftime (clock w (ticks w))) (lit "INFO") [0xD800] in
  let run := log_all literal_float literal_repr 1 [(lit "INFO", [0xD800])] w in
  let wd := demo_world FileLogger dir_at_app_log in
  let rund := log_all literal_float literal_repr 1 [(lit "INFO", lit "x")] wd in
  heap w !! 1%nat = Some (OLogger 0) /\
  heap w !! 0%nat = Some (OStrategy FileLogger) /\
  fs w !! APP_LOG = None /\
  fst run = Raise (UnicodeEncodeError (line ++ NEWLINE)) /\
  write_calls (trace (snd run)) = [(0%nat, line)] /\
  fs (snd run) !! APP_LOG = Some (File true true []) /\
  fs wd !! APP_LOG = Some Dir /\
  fst rund = Raise (IsADirectoryError APP_LOG) /\
  fs (snd rund) !! APP_LOG = Some Dir.
Proof.
  intros w line run wd rund. repeat split; vm_compute; reflexivity.
Qed.

Lemma file_logger_appends_witness :
  let w := demo_world FileLogger ∅ in
  heap w !! 1%nat = Some (OLogger 0) /\
  heap w !! 0%nat = Some (OStrategy FileLogger) /\
  writable_or_missing (fs w !! APP_LOG) /\
  texts_of_calls demo_calls /\
  content (fs (snd (log_all literal_float literal_repr 1 demo_calls w)) !! APP_LOG)
  = content (fs w !! APP_LOG)
    ++ concat (map (fun l => l ++ NEWLINE)
                   (formatted_lines (clock w) 1 (ticks w) demo_calls)).
Proof.
  intros w. pose proof demo_calls_texts as Htexts. hyps 4.
  exact (proj1 (proj2 (proj2 (proj2
           (file_logger_appends literal_float literal_repr w 1 0 demo_calls
              eq_refl eq_refl I demo_calls_texts))))).
Defined.

Lemma change_output_redirects_witness :
  heap two_strategies !! 1%nat = Some (OLogger 0) /\
  heap two_strategies !! 2%nat = Some (OStrategy FileLogger) /\
  change_output 1 2 two_strategies
  = (Ok tt, set_heap (<[1%nat := OLogger 2]> (heap two_strategies)) two_strategies).
Proof.
  hyps 2.
  exact (proj1 (change_output_redirects literal_float literal_repr two_strategies 1 0 2
                  FileLogger demo_calls eq_refl eq_refl)).
Defined.

Lemma shortcuts_delegate_witness :
  let w := demo_world ConsoleLogger ∅ in
  heap w !! 1%nat = Some (OLogger 0) /\
  heap w !! 0%nat = Some (OStrategy ConsoleLogger) /\
  info literal_float literal_repr 1 (lit "x") w
  = log literal_float literal_repr 1 (lit "INFO") (lit "x") w.
Proof.
  intros w. hyps 2.
  exact (proj1 (proj1 (shortcuts_delegate literal_float literal_repr w 1 0
                         ConsoleLogger (lit "x") eq_refl eq_refl))).
Defined.

Lemma failed_load_keeps_file_witness :
  let w := demo_world JSONLogger broken_dir in
  fs w !! LOGS = Some (File true true (lit "not json")) /\
  fst (load_logs literal_float w) = Raise (JSONDecodeError "Expecting value") /\
  fs (snd (JSONLogger_write literal_float literal_repr (lit "x") w)) = fs w.
Proof.
  intros w. hyps 2.
  exact (proj1 (proj2
           (failed_load_keeps_file literal_float literal_repr w (lit "x")
              (File true true (lit "not json")) (JSONDecodeError "Expecting value")
              eq_refl eq_refl))).
Defined.


(** * The further properties at concrete worlds *)

Definition earlier_run : list (@json (list N)) := [make_entry (lit "2024-03-08T10:00:00") (lit "[2024-03-08 10:00:00] INFO: before")].

Definition earlier_dir : gmap string node :=
  {[ "logs.json"%string := File true true (json_dumps literal_repr (JList earlier_run)) ]}.

Definition object_dir : gmap string node :=
  {[ "logs.json"%string := File true false (lit "{}") ]}.

Definition two_file_loggers : world :=
  mk_world [OStrategy FileLogger; OLogger 0; OStrategy FileLogger; OLogger 2] ∅ []
           demo_clock 0 [].

Definition logger_on_logger : world :=
  mk_world [OStrategy ConsoleLogger; OLogger 0; OLogger 1] ∅ [] demo_clock 0 [].

Lemma earlier_run_wf : Forall wf_entry earlier_run.
Proof.
  repeat constructor. eexists _, _. split; [reflexivity|].
  split; apply pair_free_check; reflexivity.
Defined.

Lemma console_logger_prints_witness :
  let w := demo_world ConsoleLogger ∅ in
  heap w !! 1%nat = Some (OLogger 0) /\
  heap w !! 0%nat = Some (OStrategy ConsoleLogger) /\
  texts_of_calls demo_calls /\
  fst (log_all literal_float literal_repr 1 demo_calls w) = Ok tt.
Proof.
  intros w. pose proof demo_calls_texts as Htexts. hyps 3.
  exact (proj1 (console_logger_prints literal_float literal_repr 1 0 demo_calls w
                  eq_refl eq_refl demo_calls_texts)).
Defined.

Lemma Logger_of_wires_witness :
  In (lit "file", FileLogger) recognized /\
  Logger_of (lit "file") (demo_world ConsoleLogger ∅)
  = (Ok 3%nat, set_heap (heap (demo_world ConsoleLogger ∅)
                         ++ [OStrategy FileLogger; OLogger 2])
                        (demo_world ConsoleLogger ∅)).
Proof.
  assert (Hin : In (lit "file", FileLogger) recognized) by (cbn; auto).
  split; [exact Hin|].
  exact (proj1 (proj1 (Logger_of_wires literal_float literal_repr
                         (demo_world ConsoleLogger ∅) (lit "file") (lit "INFO") (lit "x"))
                      FileLogger Hin)).
Defined.

Lemma JSONLogger_write_raises_before_writing_witness :
  let w := demo_world JSONLogger broken_dir in
  let w' := snd (JSONLogger_write literal_float literal_repr (lit "x") w) in
  fst (JSONLogger_write literal_float literal_repr (lit "x") w)
  = Raise (JSONDecodeError "Expecting value") /\
  exists evs,
    trace w' = trace w ++ evs /\
    ((forall path data, ~ In (EvWrite path data) evs) -> fs w' = fs w).
Proof.
  intros w w'. hyps 1.
  exact (JSONLogger_write_raises_before_writing literal_float literal_repr (lit "x") w
           (JSONDecodeError "Expecting value") eq_refl).
Defined.

Lemma JSONLogger_write_not_a_list_witness :
  let w := demo_world JSONLogger object_dir in
  fs w !! LOGS = Some (File true false (lit "{}")) /\
  (brackets (lit "{}") <= 100)%nat /\
  json_loads literal_float (lit "{}") = Ok (JDict []) /\
  (forall items, @JDict (list N) [] <> JList items) /\
  fst (JSONLogger_write literal_float literal_repr (lit "x") w)
  = Raise (AttributeError "object has no attribute 'append'").
Proof.
  intros w.
  assert (Hnot : forall items, @JDict (list N) [] <> JList items) by discriminate.
  assert (Hfew : (brackets (lit "{}") <= 100)%nat) by (vm_compute; lia).
  hyps 4.
  now rewrite (JSONLogger_write_not_a_list literal_float literal_repr (lit "x") w false
                 (lit "{}") (JDict []) eq_refl Hfew eq_refl Hnot).
Defined.

Lemma json_logger_keeps_earlier_entries_witness :
  let w := demo_world JSONLogger earlier_dir in
  heap w !! 1%nat = Some (OLogger 0) /\
  heap w !! 0%nat = Some (OStrategy JSONLogger) /\
  earlier_run <> [] /\
  Forall wf_entry earlier_run /\
  fs w !! LOGS = Some (File true true (json_dumps literal_repr (JList earlier_run))) /\
  pair_free_calls demo_calls /\
  fst (log_all literal_float literal_repr 1 demo_calls w) = Ok tt.
Proof.
  intros w. pose proof earlier_run_wf as Hwf. pose proof demo_calls_pair_free as Htexts.
  assert (Hne : earlier_run <> []) by discriminate.
  hyps 6.
  exact (proj1 (json_logger_keeps_earlier_entries literal_float literal_repr w 1 0
                  earlier_run demo_calls eq_refl eq_refl Hne Hwf eq_refl Htexts)).
Defined.

Lemma strategies_are_stateless_witness :
  let w := two_file_loggers in
  heap w !! 1%nat = Some (OLogger 0) /\ heap w !! 0%nat = Some (OStrategy FileLogger) /\
  heap w !! 3%nat = Some (OLogger 2) /\ heap w !! 2%nat = Some (OStrategy FileLogger) /\
  fs (snd (log literal_float literal_repr 1 (lit "INFO") (lit "x") w))
  = fs (snd (log literal_float literal_repr 3 (lit "INFO") (lit "x") w)).
Proof.
  intros w. hyps 4.
  exact (proj1 (proj2 (strategies_are_stateless literal_float literal_repr w 1 3 0 2
                         FileLogger (lit "INFO") (lit "x")
                         eq_refl eq_refl eq_refl eq_refl))).
Defined.

Lemma log_without_write_method_witness :
  let w := logger_on_logger in
  heap w !! 2%nat = Some (OLogger 1) /\ heap w !! 1%nat = Some (OLogger 0) /\
  fst (log literal_float literal_repr 2 (lit "INFO") (lit "x") w)
  = Raise (AttributeError "object has no attribute 'write'").
Proof.
  intros w. hyps 2.
  now rewrite (log_without_write_method literal_float literal_repr w 2 1 0
                 (lit "INFO") (lit "x") eq_refl eq_refl).
Defined.

Lemma change_output_back_witness :
  heap two_strategies !! 1%nat = Some (OLogger 0) /\
  (change_output 1 2 ;;; change_output 1 0) two_strategies = (Ok tt, two_strategies).
Proof.
  hyps 1. exact (proj1 (change_output_back two_strategies 1 0 2 2 eq_refl)).
Defined.

Lemma logs_json_is_ascii_witness :
  let w := demo_world JSONLogger ∅ in
  heap w !! 1%nat = Some (OLogger 0) /\
  heap w !! 0%nat = Some (OStrategy JSONLogger) /\
  fs w !! LOGS = None /\
  exists data,
    fs (snd (log literal_float literal_repr 1 (lit "INFO") [233; 0xD800; 0x1F600] w)) !! LOGS
    = Some (File true true data) /\ Forall is_ascii data.
Proof.
  intros w. hyps 3.
  exact (proj1 (logs_json_is_ascii literal_float literal_repr w 1 0
                  eq_refl eq_refl eq_refl) (lit "INFO") [233; 0xD800; 0x1F600]).
Defined.

Lemma file_logger_line_breaks_witness :
  let w := demo_world FileLogger ∅ in
  heap w !! 1%nat = Some (OLogger 0) /\
  heap w !! 0%nat = Some (OStrategy FileLogger) /\
  writable_or_missing (fs w !! APP_LOG) /\
  unicode_text (lit "INFO") /\ unicode_text [97; 10; 98] /\
  exists added,
    content (fs (snd (log literal_float literal_repr 1 (lit "INFO") [97; 10; 98] w))
             !! APP_LOG)
    = content (fs w !! APP_LOG) ++ added /\
    newlines added = 2%nat.
Proof.
  intros w.
  assert (Hlevel : unicode_text (lit "INFO")) by (apply forallb_text; reflexivity).
  assert (Hmessage : unicode_text [97; 10; 98]) by (apply forallb_text; reflexivity).
  hyps 5.
  exact (file_logger_line_breaks literal_float literal_repr w 1 0 (lit "INFO")
           [97; 10; 98] eq_refl eq_refl I Hlevel Hmessage).
Defined.

Lemma surrogate_pair_is_joined_witness :
  is_high_surrogate 0xd83d = true /\ is_low_surrogate 0xde00 = true /\
  json_loads literal_float (json_dumps literal_repr (JStr [0xd83d; 0xde00]))
  = Ok (JStr [0x1f600]).
Proof.
  hyps 2.
  exact (surrogate_pair_is_joined literal_float literal_repr 0xd83d 0xde00
           eq_refl eq_refl).
Defined.

Lemma demo_runs_witness :
  let w := demo_world ConsoleLogger ∅ in
  writable_or_missing (fs w !! APP_LOG) /\
  fs w !! LOGS = None /\
  fst (demo literal_float literal_repr w) = Ok tt.
Proof.
  intros w. hyps 2.
  destruct (demo_runs literal_float literal_repr w I eq_refl) as (w' & evs & Hrun & _).
  now rewrite Hrun.
Defined.
